(** * Discounting a series of books: the shopping cart and its invoice

    A shallow embedding of [discounting_book_series.py]: the classes [Book],
    [Pricing] and [CustomerShoppingCart], and the properties of
    [calculate_total_price] that the specification states.

    Modelling choices.
    - A price is a Python float in the source.  The specification speaks of
      exact decimals with no internal rounding, so prices are canonical
      rationals ([Qc]): the rounding of binary floating point, its
      dependence on the order of the additions, and overflow are not
      modelled.  A total is therefore stated only for concrete carts whose
      float arithmetic is exact or the same in every order, and for the
      plain left-to-right sum of the cart; the general properties below are
      about exceptions, the contents of the cart, the records written and
      the groupings, not about amounts.
    - [Book] defines no [__eq__], so [==] (used by [list.remove]) is object
      identity.  Every [Book] value carries the identity of the object it
      stands for in the field [ident].
    - Python sets are [gset string] and [Counter]s are [gmultiset string].
      The order in which Python iterates over a set is unspecified; here it
      is the order of [elements].  Properties of a list that comes from a
      set are stated up to permutation.
    - Attributes that the source creates outside [__init__] may be missing:
      they are [option]s, and reading a missing one raises [AttributeError].
    - Exceptions are values of [exn]; a method that mutates the cart or
      writes a record runs in the monad [M] over the [world].  Warning-level
      log records and console lines are kept in the output; debug-level log
      records are left out. *)

From Stdlib Require Import QArith Qcanon.
From stdpp Require Import gmap gmultiset strings list.

(* [set_solver] clears hypotheses that are sometimes gone already. *)
Set Warnings "-clear-no-such-hyp".

Close Scope Q_scope.
Close Scope Qc_scope.
Open Scope string_scope.
Open Scope nat_scope.

(** ** Exceptions and results *)

Inductive exn : Type :=
  | Exception (msg : string)
  | AttributeError (attr : string)
  | ValueError (msg : string)
  | KeyError (key : string)
  | UnboundLocalError (var : string).

Inductive result (A : Type) : Type :=
  | Ok (a : A)
  | Raise (e : exn).
Arguments Ok {A} a.
Arguments Raise {A} e.

(** ** class Book *)

Record Book : Type := mkBook {
  ident : nat;        (* the identity of the object, [id(book)] *)
  isbn : string;
  title : string;
  price : Qc
}.

#[global] Existing Instance Qc_eq_dec.

#[global] Instance Book_eq_dec : EqDecision Book.
Proof. solve_decision. Defined.

Definition get_isbn (b : Book) : string := isbn b.
Definition get_title (b : Book) : string := title b.
Definition get_price (b : Book) : Qc := price b.

(** ** Arguments whose type the source inspects at run time

    [type(x) == list] holds of [PyList] only: a tuple is a sequence but not
    a list, and [None] is not a sequence at all. *)

Inductive pyarg : Type :=
  | PyList (l : list Book)
  | PyTuple (l : list Book)
  | PyNone.

Definition is_list (a : pyarg) : bool :=
  match a with PyList _ => true | _ => false end.

(** ** The objects and the output *)

Record Pricing : Type := mkPricing {
  pricing_series_of_books : list Book
}.

Record CustomerShoppingCart : Type := mkCart {
  books_in_cart : list Book;
  dict_books_in_cart : gmap string Book;
  series_of_books : option (list Book);   (* set by [set_series_of_books] only *)
  pricing : option Pricing                (* set by [set_series_of_books] only *)
}.

Inductive event : Type :=
  | LogWarning (msg : string)   (* LOGGER.warning *)
  | Stdout (msg : string).      (* print *)

Record world : Type := mkWorld {
  self : CustomerShoppingCart;
  output : list event
}.

(** ** The monad of methods: state and exceptions *)

Definition M (A : Type) : Type := world → result A * world.

#[global] Instance M_ret : MRet M := λ A a w, (Ok a, w).
#[global] Instance M_bind : MBind M := λ A B f m w,
  match m w with
  | (Ok a, w') => f a w'
  | (Raise e, w') => (Raise e, w')
  end.

Definition raise {A : Type} (e : exn) : M A := λ w, (Raise e, w).
Definition get_self : M CustomerShoppingCart := λ w, (Ok (self w), w).
Definition put_self (c : CustomerShoppingCart) : M unit :=
  λ w, (Ok tt, mkWorld c (output w)).
Definition emit (ev : event) : M unit :=
  λ w, (Ok tt, mkWorld (self w) (output w ++ [ev])%list).

(** [for x in l: body x] *)
Fixpoint for_each {A : Type} (l : list A) (body : A → M unit) : M unit :=
  match l with
  | [] => mret tt
  | x :: l' => body x;; for_each l' body
  end.

(** ** class Pricing *)

Definition Pricing_init (series : pyarg) : Pricing :=
  match series with
  | PyList l => mkPricing l
  | _ => mkPricing []
  end.

(** [Pricing.get_discount_percentage].  When the argument is not a list the
    source prints a line and then returns a variable it never assigned. *)
Definition get_discount_percentage (set_of_books : pyarg) : M Z :=
  match set_of_books with
  | PyList l =>
      if length l =? 5 then mret 25%Z
      else if length l =? 4 then mret 20%Z
      else if length l =? 3 then mret 10%Z
      else if length l =? 2 then mret 5%Z
      else mret 0%Z
  | _ =>
      emit (Stdout "Unable to find discount for this set!");;
      raise (UnboundLocalError "percentage_discount")
  end.

(** ** class CustomerShoppingCart *)

(** [__init__]: the id index keeps the last book seen for each ISBN. *)
Definition build_dict (books : list Book) : gmap string Book :=
  fold_left (λ d book, <[get_isbn book := book]> d) books ∅.

Definition empty_cart_failure : result CustomerShoppingCart * list event :=
  (Raise (Exception "Shopping Cart is Empty!"),
   [LogWarning "Shopping Cart is Empty!"]).

Definition CustomerShoppingCart_init (books_in_cart : pyarg)
  : result CustomerShoppingCart * list event :=
  match books_in_cart with
  | PyList l =>
      if bool_decide (length l ≠ 0)
      then (Ok (mkCart l (build_dict l) None None), [])
      else empty_cart_failure
  | _ => empty_cart_failure
  end.

Definition set_series_of_books (series : pyarg) : M unit :=
  c ← get_self;
  match series with
  | PyList l =>
      put_self (mkCart (books_in_cart c) (dict_books_in_cart c)
                  (Some l) (Some (Pricing_init series)))
  | _ =>
      put_self (mkCart (books_in_cart c) (dict_books_in_cart c)
                  (Some []) (pricing c))
  end.

(** [subtract_list]: the difference of two [Counter]s keeps the positive
    counts only, which is the difference of multisets. *)
Definition subtract_list (larger_list smaller_list : list string) : list string :=
  let counter1 : gmultiset string := list_to_set_disj larger_list in
  let counter2 : gmultiset string := list_to_set_disj smaller_list in
  let difference := counter1 ∖ counter2 in
  elements difference.

Definition get_object_for_isbn (i : string) : M Book :=
  c ← get_self;
  match dict_books_in_cart c !! i with
  | Some book => mret book
  | None => raise (KeyError i)
  end.

Definition sum_prices (total : Qc) (books : list Book) : Qc :=
  fold_left (λ t book, (t + get_price book)%Qc) books total.

Definition calculate_discount (set_of_books : list Book) : M (Qc * Z) :=
  c ← get_self;
  match pricing c with
  | None => raise (AttributeError "pricing")
  | Some _ =>
      percentage_discount ← get_discount_percentage (PyList set_of_books);
      let price_of_books := sum_prices 0%Qc set_of_books in
      let discount_in_dollars :=
        (price_of_books * Q2Qc (inject_Z percentage_discount) / Q2Qc 100)%Qc in
      mret (discount_in_dollars, percentage_discount)
  end.

(** *** The pieces of [calculate_total_price] *)

(** [l.count(x)] *)
Definition count (x : string) (l : list string) : nat :=
  length (filter (λ y, y = x) l).

(** The first loop over the ISBNs of the cart. *)
Definition max_count_of_a_book (isbn_books_in_cart : list string) : nat :=
  fold_left
    (λ m isbn_series,
       if m <? count isbn_series isbn_books_in_cart
       then count isbn_series isbn_books_in_cart else m)
    isbn_books_in_cart 0.

Definition symmetric_difference (X Y : gset string) : gset string :=
  (X ∖ Y) ∪ (Y ∖ X).

Definition unknown_isbn_list (isbn_books_in_cart isbn_series_of_books : list string)
  : list string :=
  elements (symmetric_difference (list_to_set isbn_books_in_cart)
                                 (list_to_set isbn_series_of_books)).

(** [l.remove(x)]: drop the first element equal to [x]; [None] when there
    is none, where Python raises [ValueError]. *)
Fixpoint list_remove (x : Book) (l : list Book) : option (list Book) :=
  match l with
  | [] => None
  | y :: l' =>
      if decide (y = x) then Some l'
      else l'' ← list_remove x l'; Some (y :: l'')
  end.

Definition unknown_message (b : Book) : string :=
  "Error - " +:+ get_title b +:+ "(" +:+ get_isbn b +:+
  ") is priced Zero to avoid inconvinience for Customer!".

Definition remove_unknown_book (unknown_book : Book) : M unit :=
  emit (LogWarning (unknown_message unknown_book));;
  emit (Stdout (unknown_message unknown_book));;
  c ← get_self;
  match list_remove unknown_book (books_in_cart c) with
  | Some l =>
      put_self (mkCart l (dict_books_in_cart c) (series_of_books c) (pricing c))
  | None => raise (ValueError "list.remove(x): x not in list")
  end.

Definition remove_unknown_books (isbn_books_in_cart isbn_series_of_books : list string)
  : M unit :=
  let unknown := unknown_isbn_list isbn_books_in_cart isbn_series_of_books in
  if bool_decide ((list_to_set unknown : gset string) ⊆ list_to_set isbn_books_in_cart)
  then
    unknown_book_list ← mapM get_object_for_isbn unknown;
    for_each unknown_book_list remove_unknown_book
  else mret tt.

(** [list(set(isbn_series_of_books).intersection(set(isbn_books_in_cart)))] *)
Definition extracted_combination (isbn_series_of_books isbn_books_in_cart : list string)
  : list string :=
  elements ((list_to_set isbn_series_of_books : gset string)
              ∩ list_to_set isbn_books_in_cart).

(** One round of the partition loop, at index [i] of [range(max_count)].
    The test [i != max_count] of the source is kept; it never fails. *)
Definition split_round (isbn_series_of_books : list string) (max_count : nat)
    (st : list (list string) * list string) (i : nat)
  : list (list string) * list string :=
  let '(split_books_isbn_to_discount, isbn_books_in_cart) := st in
  let isbn_extracted_combination :=
    extracted_combination isbn_series_of_books isbn_books_in_cart in
  ((split_books_isbn_to_discount ++ [isbn_extracted_combination])%list,
   if bool_decide (i ≠ max_count)
   then subtract_list isbn_books_in_cart isbn_extracted_combination
   else isbn_books_in_cart).

(** The partition loop: [max_count] rounds, the groupings in the order in
    which they are made, and what is left of the ISBNs of the cart. *)
Definition split_loop (isbn_series_of_books isbn_books_in_cart : list string)
    (max_count : nat) : list (list string) * list string :=
  fold_left (split_round isbn_series_of_books max_count)
            (seq 0 max_count) ([], isbn_books_in_cart).

Definition split_books_isbn_to_discount
    (isbn_series_of_books isbn_books_in_cart : list string) (max_count : nat)
  : list (list string) :=
  (split_loop isbn_series_of_books isbn_books_in_cart max_count).1.

(** The pricing of one grouping, added to the running total. *)
Definition price_grouping (total_price : Qc) (set_of_isbns : list string) : M Qc :=
  set_of_books ← mapM get_object_for_isbn set_of_isbns;
  let total_price := sum_prices total_price set_of_books in
  '(discount_in_dollars, _) ← calculate_discount set_of_books;
  mret (total_price - discount_in_dollars)%Qc.

Fixpoint price_groupings (total_price : Qc) (split : list (list string)) : M Qc :=
  match split with
  | [] => mret total_price
  | set_of_isbns :: rest =>
      total_price ← price_grouping total_price set_of_isbns;
      price_groupings total_price rest
  end.

Definition calculate_total_price : M Qc :=
  c ← get_self;
  match series_of_books c with
  | None => raise (AttributeError "series_of_books")
  | Some series =>
      if bool_decide (length series ≠ 0) then
        let isbn_series_of_books := get_isbn <$> series in
        let isbn_books_in_cart := get_isbn <$> books_in_cart c in
        let max_count := max_count_of_a_book isbn_books_in_cart in
        remove_unknown_books isbn_books_in_cart isbn_series_of_books;;
        price_groupings 0%Qc
          (split_books_isbn_to_discount
             isbn_series_of_books isbn_books_in_cart max_count)
      else
        mret (sum_prices 0%Qc (books_in_cart c))
  end.

(** The groupings that [calculate_total_price] prices, for the ISBNs of a
    series and of a cart. *)
Definition split_books (isbn_series_of_books isbn_books_in_cart : list string)
  : list (list string) :=
  split_books_isbn_to_discount isbn_series_of_books isbn_books_in_cart
    (max_count_of_a_book isbn_books_in_cart).

(** ** The method [print] of the cart

    The listing of a grouping for the log: the titles joined by [" + "],
    in brackets.  The loop tells a listing that has not begun from one that
    has by testing the string against the empty string. *)
Definition print_step (print_string : string) (book : Book) : string :=
  if decide (print_string = EmptyString) then get_title book
  else print_string +:+ " + " +:+ get_title book.

Definition CustomerShoppingCart_print (set_of_books : list Book) : string :=
  "[" +:+ fold_left print_step set_of_books EmptyString +:+ "]".

(** ** The books of the demonstration *)

Definition eight : Qc := Q2Qc 8.
Definition book1 := mkBook 1 "ISBN-111" "Young Wizard - Series 1" eight.
Definition book2 := mkBook 2 "ISBN-222" "Young Wizard - Series 2" eight.
Definition book3 := mkBook 3 "ISBN-333" "Young Wizard - Series 3" eight.
Definition book4 := mkBook 4 "ISBN-444" "Young Wizard - Series 4" eight.
Definition book5 := mkBook 5 "ISBN-555" "Young Wizard - Series 5" eight.
Definition book9 := mkBook 9 "ISBN-UNKNOWN" "XXXXXXXXX" (Q2Qc 0).
Definition the_series : list Book := [book1; book2; book3; book4; book5].

(** A new cart in a world where nothing was written yet. *)
Definition new_world (c : CustomerShoppingCart) : world := mkWorld c [].

(** The world after [CustomerShoppingCart(books)] and
    [set_series_of_books(series)], with nothing written yet. *)
Definition cart_with_series (books series : list Book) : world :=
  mkWorld (mkCart books (build_dict books) (Some series) (Some (mkPricing series))) [].

(** A book outside the series, with a price of its own. *)
Definition cook_book := mkBook 6 "ISBN-999" "Cook Book" (Q2Qc 12).

(** A second copy of [book9]: another object with the same ISBN. *)
Definition book9_copy := mkBook 10 "ISBN-UNKNOWN" "XXXXXXXXX" (Q2Qc 0).

(** The cart of the second scenario of the demonstration. *)
Definition cart_B : list Book :=
  [book1; book2; book3; book4; book5; book1; book3; book5].

Definition cart_never_priced : CustomerShoppingCart :=
  mkCart [book1; book2] (build_dict [book1; book2]) None None.

Definition cart_two_and_unknown : list Book := [book1; book2; cook_book].
Definition cart_series_and_unknown : list Book :=
  [book1; book2; book3; book4; book5; book9].
Definition cart_two_unknown_copies : list Book :=
  [book1; book2; book3; book4; book5; book9; book9_copy].

(** ** What the specification says, in its own words *)

(** The discount table: exact group sizes 2, 3, 4 and 5 earn 5, 10, 20 and
    25 per cent, every other size earns nothing. *)
Definition discount_table (group_size : nat) : Z :=
  match group_size with
  | 2 => 5%Z
  | 3 => 10%Z
  | 4 => 20%Z
  | 5 => 25%Z
  | _ => 0%Z
  end.

(** The sum of the unit prices of a list of items. *)
Definition sum_of_unit_prices (books : list Book) : Qc :=
  foldr (λ book s, (get_price book + s)%Qc) 0%Qc books.

(** The unknown ISBNs: the symmetric difference of the ISBNs of the cart
    and of the series, intersected with the ISBNs of the cart. *)
Definition unknown_isbns_spec (books series : list Book) : gset string :=
  symmetric_difference (list_to_set (get_isbn <$> books))
                       (list_to_set (get_isbn <$> series))
  ∩ list_to_set (get_isbn <$> books).

(** The ISBNs of the cart without the unknown ones. *)
Definition unknown_filtered (books series : list Book) : list string :=
  filter (λ x, x ∉ unknown_isbns_spec books series) (get_isbn <$> books).

(** The number of copies in a list of ISBNs that belong to the series. *)
Definition series_copies (isbn_series_of_books isbn_books_in_cart : list string)
  : nat :=
  length (filter (λ x, x ∈ isbn_series_of_books) isbn_books_in_cart).

(** The condition under which [calculate_total_price] removes books from the
    cart: the series is not empty, every ISBN of the series is in the cart,
    and some ISBN of the cart is not in the series. *)
Definition removes_unknown_books (c : CustomerShoppingCart) : bool :=
  match series_of_books c with
  | Some series =>
      let in_series : gset string := list_to_set (get_isbn <$> series) in
      let in_cart : gset string := list_to_set (get_isbn <$> books_in_cart c) in
      bool_decide (series ≠ [] ∧ in_series ⊆ in_cart ∧ ¬ in_cart ⊆ in_series)
  | None => false
  end.

(** The groupings of [n] rounds of the partition loop, round by round. *)
Fixpoint groupings_from (isbn_series_of_books isbn_books_in_cart : list string)
    (n : nat) : list (list string) :=
  match n with
  | 0 => []
  | S n =>
      let g := extracted_combination isbn_series_of_books isbn_books_in_cart in
      g :: groupings_from isbn_series_of_books (subtract_list isbn_books_in_cart g) n
  end.

(** Two lists of ISBNs hold the same copies of the ISBNs of the series. *)
Definition same_series_copies (isbn_series_of_books l1 l2 : list string) : Prop :=
  ∀ x, x ∈ isbn_series_of_books → count x l1 = count x l2.

(** Two worlds whose carts have the same index, series and pricing model. *)
Definition same_index (w1 w2 : world) : Prop :=
  dict_books_in_cart (self w1) = dict_books_in_cart (self w2)
  ∧ series_of_books (self w1) = series_of_books (self w2)
  ∧ pricing (self w1) = pricing (self w2).

(** The two records that report an unknown book. *)
Definition unknown_report (b : Book) : list event :=
  [LogWarning (unknown_message b); Stdout (unknown_message b)].

(** What [calculate_total_price] reads: the books of a grouping in the
    index, the price of a grouping added to a running total, and the price
    of a list of groupings, as functions of the cart. *)
Fixpoint lookup_all (d : gmap string Book) (set_of_isbns : list string)
  : result (list Book) :=
  match set_of_isbns with
  | [] => Ok []
  | i :: rest =>
      match d !! i with
      | None => Raise (KeyError i)
      | Some book =>
          match lookup_all d rest with
          | Ok books => Ok (book :: books)
          | Raise e => Raise e
          end
      end
  end.

Definition grouping_total (c : CustomerShoppingCart) (total_price : Qc)
    (set_of_isbns : list string) : result Qc :=
  match lookup_all (dict_books_in_cart c) set_of_isbns with
  | Raise e => Raise e
  | Ok set_of_books =>
      match pricing c with
      | None => Raise (AttributeError "pricing")
      | Some _ =>
          Ok (total_price + sum_of_unit_prices set_of_books
              - sum_of_unit_prices set_of_books
                * Q2Qc (inject_Z (discount_table (length set_of_books)))
                / Q2Qc 100)%Qc
      end
  end.

Fixpoint groupings_total (c : CustomerShoppingCart) (total_price : Qc)
    (split : list (list string)) : result Qc :=
  match split with
  | [] => Ok total_price
  | set_of_isbns :: rest =>
      match grouping_total c total_price set_of_isbns with
      | Ok total_price => groupings_total c total_price rest
      | Raise e => Raise e
      end
  end.

(** Every entry of the index is filed under the ISBN of its book. *)
Definition index_keyed (d : gmap string Book) : Prop :=
  ∀ i b, d !! i = Some b → get_isbn b = i.

(** A method that leaves the world as it found it. *)
Definition readonly {A : Type} (m : M A) : Prop := ∀ w, (m w).2 = w.

(** * Properties *)

(** ** Basic facts *)

Lemma sum_prices_spec (books : list Book) (total : Qc) :
  sum_prices total books = (total + sum_of_unit_prices books)%Qc.
Proof.
  revert total. unfold sum_prices.
  induction books as [|b books IH]; intros total; simpl.
  - ring.
  - rewrite IH. ring.
Qed.

Lemma sum_prices_zero (books : list Book) :
  sum_prices 0%Qc books = sum_of_unit_prices books.
Proof. rewrite sum_prices_spec. ring. Qed.

(** ** The discount policy *)

Lemma get_discount_percentage_list (set_of_books : list Book) (w : world) :
  get_discount_percentage (PyList set_of_books) w
  = (Ok (discount_table (length set_of_books)), w).
Proof.
  unfold get_discount_percentage.
  destruct set_of_books as [|b1 [|b2 [|b3 [|b4 [|b5 [|b6 l]]]]]]; reflexivity.
Qed.

(** C4: the discount percentage is defined for a group of any size; it is
    5, 10, 20 and 25 for sizes 2, 3, 4 and 5, and 0 for every other size
    (0, 1, and 6 or more).  The call raises nothing and changes nothing. *)
Theorem get_discount_percentage_table (set_of_books : list Book) (w : world) :
  get_discount_percentage (PyList set_of_books) w
  = (Ok (discount_table (length set_of_books)), w).
Proof.
  unfold get_discount_percentage.
  destruct set_of_books as [|b1 [|b2 [|b3 [|b4 [|b5 [|b6 l]]]]]]; reflexivity.
Qed.

Lemma discount_table_large (n : nat) : discount_table (6 + n) = 0%Z.
Proof. reflexivity. Qed.

(** ** Construction of the cart *)

(** C6: an empty list of items is refused with the exception
    'Shopping Cart is Empty!' and no cart is made; every non-empty list of
    items gives a cart that holds exactly these items. *)
Theorem CustomerShoppingCart_init_empty_or_not :
  CustomerShoppingCart_init (PyList [])
  = (Raise (Exception "Shopping Cart is Empty!"),
     [LogWarning "Shopping Cart is Empty!"])
  ∧ ∀ (b : Book) (l : list Book),
      ∃ c, CustomerShoppingCart_init (PyList (b :: l)) = (Ok c, [])
           ∧ books_in_cart c = b :: l
           ∧ dict_books_in_cart c = build_dict (b :: l).
Proof.
  split; [reflexivity|].
  intros b l. eexists. split; [reflexivity|]. split; reflexivity.
Qed.

(** C10: an argument that is not a list is refused exactly as the empty
    list is: same exception, same message, same log record. *)
Theorem CustomerShoppingCart_init_not_a_list (a : pyarg) :
  is_list a = false →
  CustomerShoppingCart_init a = CustomerShoppingCart_init (PyList []).
Proof. destruct a; simpl; [discriminate | reflexivity | reflexivity]. Qed.

Lemma CustomerShoppingCart_init_not_a_list_witness :
  is_list (PyTuple [book1; book2]) = false
  ∧ CustomerShoppingCart_init (PyTuple [book1; book2])
    = CustomerShoppingCart_init (PyList []).
Proof.
  split; [reflexivity|].
  apply (CustomerShoppingCart_init_not_a_list (PyTuple [book1; book2])).
  reflexivity.
Defined.

(** ** Pricing without a series *)

(** With an empty series the total is the sum of the unit prices of all
    items of the cart; nothing is raised, nothing is written, and the items
    of the cart stay as they were. *)
Lemma empty_series_total (b : Book) (l : list Book) :
  ∃ c w',
    CustomerShoppingCart_init (PyList (b :: l)) = (Ok c, [])
    ∧ (set_series_of_books (PyList []);; calculate_total_price) (new_world c)
      = (Ok (sum_of_unit_prices (b :: l)), w')
    ∧ books_in_cart (self w') = b :: l
    ∧ output w' = [].
Proof.
  exists (mkCart (b :: l) (build_dict (b :: l)) None None).
  exists (mkWorld (mkCart (b :: l) (build_dict (b :: l)) (Some [])
                    (Some (mkPricing []))) []).
  split; [reflexivity|]. split; [|split; reflexivity].
  rewrite <- sum_prices_zero. reflexivity.
Qed.

(** C2, on the cart [book1, book2] for which [set_series_of_books] was
    never called: [__init__] has not created the attribute
    [series_of_books], and [calculate_total_price] raises [AttributeError]
    where the claim has it return 16.00, the sum of the unit prices.  The
    same cart after [set_series_of_books([])], and after
    [set_series_of_books(None)], does return 16.00. *)
Theorem never_set_series_raises :
  CustomerShoppingCart_init (PyList [book1; book2]) = (Ok cart_never_priced, [])
  ∧ calculate_total_price (new_world cart_never_priced)
    = (Raise (AttributeError "series_of_books"), new_world cart_never_priced)
  ∧ ((set_series_of_books (PyList []);; calculate_total_price)
       (new_world cart_never_priced)).1 = Ok (Q2Qc 16)
  ∧ ((set_series_of_books PyNone;; calculate_total_price)
       (new_world cart_never_priced)).1 = Ok (Q2Qc 16).
Proof.
  split; [reflexivity|]. split; [reflexivity|].
  split; vm_compute; f_equal; apply Qc_is_canon; reflexivity.
Qed.

(** C9: an argument of [set_series_of_books] that is not a list raises
    nothing; the series becomes the empty list, and the total asked for next
    is the sum of the unit prices of all items of the cart, whatever the
    state of the cart was before. *)
Theorem not_a_list_series_total (a : pyarg) (w : world) :
  is_list a = false →
  ∃ w',
    set_series_of_books a w = (Ok tt, w')
    ∧ series_of_books (self w') = Some []
    ∧ calculate_total_price w'
      = (Ok (sum_of_unit_prices (books_in_cart (self w))), w')
    ∧ books_in_cart (self w') = books_in_cart (self w)
    ∧ output w' = output w.
Proof.
  intros Ha.
  exists (mkWorld (mkCart (books_in_cart (self w)) (dict_books_in_cart (self w))
                    (Some []) (pricing (self w))) (output w)).
  destruct a as [l| |]; [discriminate| |];
    (split; [reflexivity|]; split; [reflexivity|];
     split; [|split; reflexivity];
     rewrite <- sum_prices_zero; reflexivity).
Qed.

Lemma not_a_list_series_total_witness :
  is_list PyNone = false
  ∧ ∃ w',
      set_series_of_books PyNone (new_world cart_never_priced) = (Ok tt, w')
      ∧ series_of_books (self w') = Some []
      ∧ calculate_total_price w'
        = (Ok (sum_of_unit_prices [book1; book2]), w')
      ∧ books_in_cart (self w') = [book1; book2]
      ∧ output w' = [].
Proof.
  split; [reflexivity|].
  apply (not_a_list_series_total PyNone (new_world cart_never_priced)).
  reflexivity.
Defined.

(** ** Sessions: a cart with a series attached *)

Lemma cart_with_series_reached (b : Book) (l series : list Book) :
  ∃ c, CustomerShoppingCart_init (PyList (b :: l)) = (Ok c, [])
       ∧ set_series_of_books (PyList series) (new_world c)
         = (Ok tt, cart_with_series (b :: l) series).
Proof. eexists. split; reflexivity. Qed.

Lemma Qc_this_inj (p q : Qc) : this p = this q → p = q.
Proof. intros H. apply Qc_is_canon. rewrite H. reflexivity. Qed.

(** Closed goals about prices: evaluate, then compare the fractions. *)
Ltac evaluate :=
  vm_compute;
  repeat match goal with
         | |- (_, _) = (_, _) => f_equal
         | |- Ok _ = Ok _ => f_equal
         | |- @eq Qc _ _ => apply Qc_this_inj; reflexivity
         | |- _ => reflexivity
         end.

(** ** Scenario B of the demonstration *)

(** C1: the cart [book1..book5, book1, book3, book5] of eight books at 8.00
    with the five-book series is split into a grouping of the five ISBNs
    (subtotal 40, 25 per cent off) and a grouping of three ISBNs (subtotal
    24, 10 per cent off), and the total is exactly 51.60. *)
Theorem scenario_B_total :
  let w := cart_with_series cart_B the_series in
  ∃ g1 g2 books1 books2,
    split_books (get_isbn <$> the_series) (get_isbn <$> cart_B) = [g1; g2]
    ∧ g1 ≡ₚ ["ISBN-111"; "ISBN-222"; "ISBN-333"; "ISBN-444"; "ISBN-555"]
    ∧ g2 ≡ₚ ["ISBN-111"; "ISBN-333"; "ISBN-555"]
    ∧ mapM get_object_for_isbn g1 w = (Ok books1, w)
    ∧ mapM get_object_for_isbn g2 w = (Ok books2, w)
    ∧ sum_of_unit_prices books1 = Q2Qc 40
    ∧ sum_of_unit_prices books2 = Q2Qc 24
    ∧ calculate_discount books1 w = (Ok (Q2Qc 10, 25%Z), w)
    ∧ calculate_discount books2 w = (Ok (Q2Qc (24 # 10), 10%Z), w)
    ∧ calculate_total_price w = (Ok (Q2Qc (516 # 10)), w).
Proof.
  intros w.
  exists ["ISBN-333"; "ISBN-555"; "ISBN-111"; "ISBN-222"; "ISBN-444"],
         ["ISBN-333"; "ISBN-555"; "ISBN-111"],
         [book3; book5; book1; book2; book4], [book3; book5; book1].
  split; [by vm_compute|].
  split; [by apply (bool_decide_unpack _); vm_compute|].
  split; [by apply (bool_decide_unpack _); vm_compute|].
  repeat split; evaluate.
Qed.

(** The other scenarios of the demonstration: three books of the series
    cost 21.60, and the cart of scenario B with an empty series costs 64.00. *)
Example scenario_A_total :
  (calculate_total_price (cart_with_series [book1; book2; book3] the_series)).1
  = Ok (Q2Qc (216 # 10)).
Proof. evaluate. Qed.

Example scenario_C_total :
  (calculate_total_price (cart_with_series cart_B [])).1 = Ok (Q2Qc 64).
Proof. evaluate. Qed.

(** ** Items that the series does not know *)

(** C3, on the cart [book1, book2, cook_book] with the five-book series:
    ISBN-999 is unknown to the series and the price of the cook book is left
    out of the total (15.20 is 16.00 less 5 per cent), but no record naming
    it is written.  The symmetric difference also holds ISBN-333, ISBN-444
    and ISBN-555, so it is not a subset of the ISBNs of the cart and the
    branch that reports unknown books is skipped. *)
Theorem unknown_item_not_reported :
  let w := cart_with_series cart_two_and_unknown the_series in
  elements (unknown_isbns_spec cart_two_and_unknown the_series) = ["ISBN-999"]
  ∧ calculate_total_price w = (Ok (Q2Qc (152 # 10)), w)
  ∧ output (calculate_total_price w).2 = [].
Proof. repeat split; evaluate. Qed.

(** When every ISBN of the series is in the cart the unknown book is
    reported, once on the log and once on the console. *)
Lemma unknown_item_reported :
  let w := cart_with_series cart_series_and_unknown the_series in
  (calculate_total_price w).1 = Ok (Q2Qc 30)
  ∧ output (calculate_total_price w).2
    = [LogWarning (unknown_message book9); Stdout (unknown_message book9)].
Proof. repeat split; evaluate. Qed.

(** C7, as stated, fails on the cart [book1..book5, book9] with the
    five-book series: the call removes [book9] from the list that the cart
    stores, and the removal outlives the call. *)
Lemma cart_contents_counterexample :
  let w := cart_with_series cart_series_and_unknown the_series in
  books_in_cart (self (calculate_total_price w).2)
  = [book1; book2; book3; book4; book5]
  ∧ books_in_cart (self (calculate_total_price w).2) ≠ books_in_cart (self w).
Proof. split; [by vm_compute|]. vm_compute. discriminate. Qed.

(** C8, on the cart [book1..book5, book9, book9_copy] with the five-book
    series: the first call returns 30.00 and removes the representative of
    ISBN-UNKNOWN, which is the last copy; the second call finds ISBN-UNKNOWN
    in the cart again, looks up the same representative, and fails to remove
    it from the list. *)
Theorem second_call_raises :
  let w := cart_with_series cart_two_unknown_copies the_series in
  ∃ w1 w2,
    calculate_total_price w = (Ok (Q2Qc 30), w1)
    ∧ books_in_cart (self w1) = [book1; book2; book3; book4; book5; book9]
    ∧ calculate_total_price w1
      = (Raise (ValueError "list.remove(x): x not in list"), w2).
Proof.
  intros w.
  exists (calculate_total_price w).2,
         (calculate_total_price (calculate_total_price w).2).2.
  repeat split; evaluate.
Qed.

(** ** Methods that read the world and leave it as it is *)

Create HintDb readonly.

Lemma readonly_mret {A : Type} (a : A) : readonly (mret a).
Proof. intros w. reflexivity. Qed.

Lemma readonly_raise {A : Type} (e : exn) : readonly (@raise A e).
Proof. intros w. reflexivity. Qed.

Lemma readonly_get_self : readonly get_self.
Proof. intros w. reflexivity. Qed.

Lemma readonly_bind {A B : Type} (m : M A) (f : A → M B) :
  readonly m → (∀ a, readonly (f a)) → readonly (m ≫= f).
Proof.
  intros Hm Hf w. unfold mbind, M_bind.
  specialize (Hm w). destruct (m w) as [[a|e] w1]; simpl in Hm; subst w1.
  - apply Hf.
  - reflexivity.
Qed.

#[global] Hint Resolve readonly_mret readonly_raise readonly_get_self : readonly.

Lemma readonly_get_object_for_isbn (i : string) : readonly (get_object_for_isbn i).
Proof.
  unfold get_object_for_isbn.
  apply readonly_bind; [apply readonly_get_self|]. intros c.
  destruct (dict_books_in_cart c !! i); auto with readonly.
Qed.

Lemma readonly_mapM {A B : Type} (f : A → M B) (l : list A) :
  (∀ a, readonly (f a)) → readonly (mapM f l).
Proof.
  intros Hf. induction l as [|a l IH]; simpl.
  - apply readonly_mret.
  - apply readonly_bind; [apply Hf|]. intros b.
    apply readonly_bind; [apply IH|]. intros k. apply readonly_mret.
Qed.

Lemma readonly_get_discount_percentage (l : list Book) :
  readonly (get_discount_percentage (PyList l)).
Proof.
  intros w. unfold get_discount_percentage.
  repeat (case_match; [reflexivity|]). reflexivity.
Qed.

Lemma readonly_calculate_discount (set_of_books : list Book) :
  readonly (calculate_discount set_of_books).
Proof.
  unfold calculate_discount.
  apply readonly_bind; [apply readonly_get_self|]. intros c.
  destruct (pricing c); [|apply readonly_raise].
  apply readonly_bind; [apply readonly_get_discount_percentage|].
  intros percentage. apply readonly_mret.
Qed.

Lemma readonly_price_grouping (total : Qc) (set_of_isbns : list string) :
  readonly (price_grouping total set_of_isbns).
Proof.
  unfold price_grouping.
  apply readonly_bind; [apply readonly_mapM, readonly_get_object_for_isbn|].
  intros books. apply readonly_bind; [apply readonly_calculate_discount|].
  intros [d p]. apply readonly_mret.
Qed.

Lemma readonly_price_groupings (split : list (list string)) (total : Qc) :
  readonly (price_groupings total split).
Proof.
  revert total. induction split as [|g split IH]; intros total; simpl.
  - apply readonly_mret.
  - apply readonly_bind; [apply readonly_price_grouping|]. intros t. apply IH.
Qed.

(** ** The contents of the cart across a call *)

Section unknown_books.
Variables isbn_books_in_cart isbn_series_of_books : list string.

Local Abbreviation in_cart := (list_to_set isbn_books_in_cart : gset string).
Local Abbreviation in_series := (list_to_set isbn_series_of_books : gset string).

Lemma unknown_isbn_list_set :
  list_to_set (unknown_isbn_list isbn_books_in_cart isbn_series_of_books)
  = symmetric_difference in_cart in_series.
Proof. unfold unknown_isbn_list. apply list_to_set_elements_L. Qed.

(** The test of the source, a subset test on the symmetric difference,
    asks whether every ISBN of the series is in the cart. *)
Lemma unknown_subset_test :
  (list_to_set (unknown_isbn_list isbn_books_in_cart isbn_series_of_books) : gset string)
    ⊆ in_cart
  ↔ in_series ⊆ in_cart.
Proof.
  rewrite unknown_isbn_list_set. unfold symmetric_difference.
  split; intros H x Hx.
  - destruct (decide (x ∈ in_cart)) as [|Hn]; [done|].
    apply H. set_solver.
  - set_solver.
Qed.

Lemma unknown_isbn_list_nil :
  in_cart ⊆ in_series → in_series ⊆ in_cart →
  unknown_isbn_list isbn_books_in_cart isbn_series_of_books = [].
Proof.
  intros H1 H2. unfold unknown_isbn_list.
  replace (symmetric_difference (list_to_set isbn_books_in_cart)
             (list_to_set isbn_series_of_books)) with (∅ : gset string).
  - apply elements_empty.
  - unfold symmetric_difference. set_solver.
Qed.

Lemma remove_unknown_books_skipped (w : world) :
  ¬ (in_series ⊆ in_cart ∧ ¬ in_cart ⊆ in_series) →
  remove_unknown_books isbn_books_in_cart isbn_series_of_books w = (Ok tt, w).
Proof.
  intros H. unfold remove_unknown_books.
  case_bool_decide as Hsub; [|reflexivity].
  apply unknown_subset_test in Hsub.
  destruct (decide (in_cart ⊆ in_series)) as [Hc|Hc]; [|tauto].
  rewrite (unknown_isbn_list_nil Hc Hsub). reflexivity.
Qed.
End unknown_books.

Lemma calculate_total_price_without_removal (w : world) :
  removes_unknown_books (self w) = false →
  (calculate_total_price w).2 = w.
Proof.
  unfold removes_unknown_books, calculate_total_price.
  unfold mbind at 1. unfold M_bind, get_self. simpl.
  destruct (series_of_books (self w)) as [series|]; [|reflexivity].
  intros H. apply bool_decide_eq_false in H.
  case_bool_decide as Hlen; [|reflexivity].
  unfold mbind, M_bind.
  rewrite remove_unknown_books_skipped.
  - apply readonly_price_groupings.
  - intros [H1 H2]. apply H. split; [|done].
    intros ->. by apply Hlen.
Qed.

(** C7, amended: [calculate_total_price] leaves the cart, and the whole
    world, as it was unless it removes unknown books, that is unless the
    series is not empty, every ISBN of the series is in the cart and some
    ISBN of the cart is not in the series. *)
Theorem cart_contents_unchanged (w : world) :
  removes_unknown_books (self w) = false →
  self (calculate_total_price w).2 = self w
  ∧ output (calculate_total_price w).2 = output w.
Proof.
  intros H. by rewrite (calculate_total_price_without_removal w H).
Qed.

Lemma cart_contents_unchanged_witness :
  removes_unknown_books (self (cart_with_series cart_two_and_unknown the_series))
  = false
  ∧ self (calculate_total_price
             (cart_with_series cart_two_and_unknown the_series)).2
    = self (cart_with_series cart_two_and_unknown the_series)
  ∧ output (calculate_total_price
               (cart_with_series cart_two_and_unknown the_series)).2
    = output (cart_with_series cart_two_and_unknown the_series).
Proof.
  split; [by vm_compute|].
  apply (cart_contents_unchanged (cart_with_series cart_two_and_unknown the_series)).
  by vm_compute.
Defined.

(** Without a removal, asking again gives the same answer. *)
Corollary second_call_same_without_removal (w : world) :
  removes_unknown_books (self w) = false →
  calculate_total_price (calculate_total_price w).2 = calculate_total_price w.
Proof.
  intros H. by rewrite (calculate_total_price_without_removal w H).
Qed.

(** The unknown books of a cart go unreported whenever an ISBN of the
    series is missing from the cart: nothing is written at all. *)
Corollary no_report_when_series_incomplete (w : world) (series : list Book) :
  series_of_books (self w) = Some series →
  ¬ (list_to_set (get_isbn <$> series) : gset string)
      ⊆ list_to_set (get_isbn <$> books_in_cart (self w)) →
  output (calculate_total_price w).2 = output w.
Proof.
  intros Hs Hsub. rewrite calculate_total_price_without_removal; [done|].
  unfold removes_unknown_books. rewrite Hs.
  apply bool_decide_eq_false. tauto.
Qed.

(** ** Counting copies *)

Lemma list_to_set_disj_elements (X : gmultiset string) :
  list_to_set_disj (elements X) = X.
Proof.
  induction X as [|x X IH] using gmultiset_ind.
  - by rewrite gmultiset_elements_empty.
  - rewrite gmultiset_elements_disj_union, gmultiset_elements_singleton.
    rewrite list_to_set_disj_app, IH. f_equal.
    rewrite list_to_set_disj_cons, list_to_set_disj_nil. multiset_solver.
Qed.

Lemma elements_list_to_set_disj (l : list string) :
  elements (list_to_set_disj l : gmultiset string) ≡ₚ l.
Proof.
  induction l as [|x l IH]; simpl.
  - by rewrite gmultiset_elements_empty.
  - rewrite gmultiset_elements_disj_union, gmultiset_elements_singleton.
    simpl. by rewrite IH.
Qed.

Lemma count_multiplicity (x : string) (l : list string) :
  count x l = multiplicity x (list_to_set_disj l : gmultiset string).
Proof.
  unfold count. induction l as [|y l IH]; simpl.
  - by rewrite multiplicity_empty.
  - rewrite multiplicity_disj_union, multiplicity_singleton, <- IH, filter_cons.
    destruct (decide (y = x)) as [->|Hne].
    + by rewrite decide_True.
    + by rewrite decide_False by congruence.
Qed.

Lemma elem_of_count (x : string) (l : list string) : x ∈ l ↔ 0 < count x l.
Proof.
  rewrite count_multiplicity, <- elem_of_multiplicity.
  by rewrite elem_of_list_to_set_disj.
Qed.

Lemma count_NoDup (x : string) (l : list string) :
  NoDup l → count x l = if decide (x ∈ l) then 1 else 0.
Proof.
  intros Hl. rewrite count_multiplicity.
  induction Hl as [|y l Hy Hl IH].
  - rewrite list_to_set_disj_nil, multiplicity_empty.
    case_decide as Hx; [by apply not_elem_of_nil in Hx|done].
  - rewrite list_to_set_disj_cons, multiplicity_disj_union, multiplicity_singleton, IH.
    repeat case_decide; set_solver.
Qed.

Lemma count_subtract_list (x : string) (l g : list string) :
  count x (subtract_list l g) = count x l - count x g.
Proof.
  unfold subtract_list.
  by rewrite !count_multiplicity, list_to_set_disj_elements, multiplicity_difference.
Qed.

(** The first loop finds a bound of the number of copies of every ISBN. *)
Lemma max_count_loop_ge (l0 l : list string) (m : nat) :
  m ≤ fold_left (λ m x, if m <? count x l0 then count x l0 else m) l m
  ∧ ∀ x, x ∈ l →
      count x l0 ≤ fold_left (λ m x, if m <? count x l0 then count x l0 else m) l m.
Proof.
  revert m. induction l as [|y l IH]; intros m; simpl.
  - split; [lia|]. intros x Hx. by apply not_elem_of_nil in Hx.
  - destruct (IH (if m <? count y l0 then count y l0 else m)) as [H1 H2].
    assert (m ≤ (if m <? count y l0 then count y l0 else m)
            ∧ count y l0 ≤ (if m <? count y l0 then count y l0 else m)) as [H3 H4].
    { destruct (Nat.ltb_spec m (count y l0)); lia. }
    split; [lia|].
    intros x [->|Hx]%elem_of_cons; [lia|by apply H2].
Qed.

Lemma count_le_max_count (x : string) (l : list string) :
  count x l ≤ max_count_of_a_book l.
Proof.
  destruct (decide (x ∈ l)) as [Hx|Hx].
  - by apply (max_count_loop_ge l l 0).
  - assert (¬ 0 < count x l) by by rewrite <- elem_of_count. lia.
Qed.

(** ** The partition loop *)

Section partition.
Variable isbn_series_of_books : list string.

Local Abbreviation in_series := (λ x : string, x ∈ isbn_series_of_books).
Local Abbreviation extracted := (extracted_combination isbn_series_of_books).
Local Abbreviation copies := (series_copies isbn_series_of_books).

Lemma elem_of_extracted_combination (x : string) (cart : list string) :
  x ∈ extracted cart ↔ x ∈ isbn_series_of_books ∧ x ∈ cart.
Proof.
  unfold extracted_combination. set_solver.
Qed.

Lemma NoDup_extracted_combination (cart : list string) :
  NoDup (extracted cart).
Proof. unfold extracted_combination. apply NoDup_elements. Qed.

Lemma series_copies_size (cart : list string) :
  copies cart
  = size (filter in_series (list_to_set_disj cart : gmultiset string)).
Proof.
  unfold series_copies. induction cart as [|y cart IH].
  - rewrite (@list_to_set_disj_nil string _ _), gmultiset_filter_empty.
    by rewrite (gmultiset_size_empty (A:=string)).
  - rewrite list_to_set_disj_cons, gmultiset_filter_disj_union,
      gmultiset_size_disj_union, <- IH, filter_cons, gmultiset_filter_singleton.
    case_decide.
    + by rewrite gmultiset_size_singleton.
    + by rewrite (gmultiset_size_empty (A:=string)).
Qed.

(** One round takes one copy of every ISBN of the series that is left. *)
Lemma series_copies_round (cart : list string) :
  copies cart
  = length (extracted cart)
    + copies (subtract_list cart (extracted cart)).
Proof.
  set (g := extracted cart).
  set (G := list_to_set_disj g : gmultiset string).
  set (X := list_to_set_disj cart : gmultiset string).
  assert (length g = size G) as ->.
  { unfold G, size, gmultiset_size. simpl.
    by rewrite elements_list_to_set_disj. }
  assert (filter in_series G = G) as HG.
  { apply gmultiset_filter_id. intros x Hx.
    apply elem_of_list_to_set_disj, elem_of_extracted_combination in Hx. tauto. }
  assert (G ⊆ filter in_series X) as Hsub.
  { intros x. rewrite multiplicity_filter. unfold G, X.
    rewrite <- !count_multiplicity.
    rewrite (count_NoDup x g) by apply NoDup_extracted_combination.
    case_decide as Hx; [|lia].
    apply elem_of_extracted_combination in Hx as [Hs Hc].
    rewrite decide_True by done. by apply elem_of_count in Hc. }
  rewrite !series_copies_size. unfold subtract_list.
  rewrite list_to_set_disj_elements, gmultiset_filter_difference.
  fold g G X. rewrite HG, gmultiset_size_difference by done.
  apply gmultiset_subseteq_size in Hsub. lia.
Qed.

Lemma count_round (x : string) (cart : list string) :
  x ∈ isbn_series_of_books →
  count x (subtract_list cart (extracted cart)) = count x cart - 1.
Proof.
  intros Hx. rewrite count_subtract_list.
  rewrite (count_NoDup x (extracted cart))
    by apply NoDup_extracted_combination.
  case_decide as Hg; [done|].
  assert (¬ 0 < count x cart); [|lia].
  rewrite <- elem_of_count. intros Hc. apply Hg.
  by apply elem_of_extracted_combination.
Qed.

Lemma series_copies_zero (cart : list string) :
  (∀ x, x ∈ isbn_series_of_books → count x cart = 0) → copies cart = 0.
Proof.
  intros H. unfold series_copies.
  destruct (filter in_series cart) as [|y l] eqn:Hf; [done|].
  assert (y ∈ filter in_series cart) as Hy by (rewrite Hf; apply list_elem_of_here).
  apply list_elem_of_filter in Hy as [Hs Hc].
  apply elem_of_count in Hc. specialize (H y Hs). lia.
Qed.

(** The loop from index [i], with [n] rounds to go. *)
Lemma split_loop_rounds (max_count n : nat) :
  ∀ (i : nat) (split : list (list string)) (cart : list string),
    i + n ≤ max_count →
    ∃ groupings cart',
      fold_left (split_round isbn_series_of_books max_count) (seq i n) (split, cart)
      = ((split ++ groupings)%list, cart')
      ∧ length groupings = n
      ∧ Forall (λ g, NoDup g ∧ ∀ x, x ∈ g → x ∈ isbn_series_of_books) groupings
      ∧ sum_list (length <$> groupings) + copies cart' = copies cart
      ∧ ∀ x, x ∈ isbn_series_of_books → count x cart' = count x cart - n.
Proof.
  induction n as [|n IH]; intros i split cart Hi; simpl.
  - exists [], cart. rewrite app_nil_r.
    split_and!; [done|done|constructor|done|]. intros x _. lia.
  - rewrite bool_decide_eq_true_2 by lia.
    fold (extracted cart).
    destruct (IH (S i) (split ++ [extracted cart])%list
                (subtract_list cart (extracted cart)))
      as (groupings & cart' & Hloop & Hlen & Hall & Hsum & Hcount); [lia|].
    exists (extracted cart :: groupings), cart'.
    rewrite Hloop, <- app_assoc. simpl.
    split_and!; [done|by rewrite Hlen| | |].
    + constructor; [|done]. split; [apply NoDup_extracted_combination|].
      intros x Hx. by apply elem_of_extracted_combination in Hx as [? _].
    + rewrite (series_copies_round cart), <- Hsum. unfold fmap. lia.
    + intros x Hx. rewrite (Hcount x Hx), (count_round x cart Hx). lia.
Qed.
End partition.

Lemma series_copies_unknown_filtered (books series : list Book) :
  series_copies (get_isbn <$> series) (unknown_filtered books series)
  = series_copies (get_isbn <$> series) (get_isbn <$> books).
Proof.
  unfold series_copies, unknown_filtered. f_equal.
  assert (∀ x, x ∈ get_isbn <$> series → x ∉ unknown_isbns_spec books series) as H.
  { intros x Hx. unfold unknown_isbns_spec, symmetric_difference. set_solver. }
  induction (get_isbn <$> books) as [|y l IH]; [done|].
  rewrite !filter_cons. destruct (decide (y ∈ get_isbn <$> series)) as [Hy|Hy].
  - rewrite decide_True by by apply H.
    by rewrite filter_cons, decide_True, IH by done.
  - case_decide; [|done]. by rewrite filter_cons, decide_False by done.
Qed.

(** C5: the partition loop of [calculate_total_price] puts into the
    groupings as many ISBNs as the cart has copies of ISBNs of the series,
    in the cart as it is and in the cart without the unknown ISBNs alike;
    every grouping holds an ISBN at most once and holds ISBNs of the series
    only.  The loop makes one grouping for each of its rounds. *)
Theorem partition_drains_series_copies (books series : list Book) :
  let isbn_series_of_books := get_isbn <$> series in
  let isbn_books_in_cart := get_isbn <$> books in
  let groupings := split_books isbn_series_of_books isbn_books_in_cart in
  sum_list (length <$> groupings)
  = length (filter (λ x, x ∈ isbn_series_of_books) isbn_books_in_cart)
  ∧ sum_list (length <$> groupings)
    = length (filter (λ x, x ∈ isbn_series_of_books) (unknown_filtered books series))
  ∧ Forall (λ g, NoDup g ∧ ∀ x, x ∈ g → x ∈ isbn_series_of_books) groupings
  ∧ length groupings = max_count_of_a_book isbn_books_in_cart.
Proof.
  intros isbn_series_of_books isbn_books_in_cart groupings.
  destruct (split_loop_rounds isbn_series_of_books
              (max_count_of_a_book isbn_books_in_cart)
              (max_count_of_a_book isbn_books_in_cart) 0 [] isbn_books_in_cart)
    as (gs & cart' & Hloop & Hlen & Hall & Hsum & Hcount); [lia|].
  assert (groupings = gs) as ->.
  { unfold groupings, split_books, split_books_isbn_to_discount, split_loop.
    by rewrite Hloop. }
  assert (series_copies isbn_series_of_books cart' = 0) as Hdrained.
  { apply series_copies_zero. intros x Hx. rewrite (Hcount x Hx).
    pose proof (count_le_max_count x isbn_books_in_cart). lia. }
  assert (sum_list (length <$> gs)
          = series_copies isbn_series_of_books isbn_books_in_cart) as Hdrain by lia.
  split_and!; [done| |done|done].
  rewrite Hdrain. symmetry. apply series_copies_unknown_filtered.
Qed.

(** * Further properties of the code *)

(** ** The index of the cart *)

Lemma build_dict_snoc (books : list Book) (b : Book) :
  build_dict (books ++ [b]) = <[get_isbn b := b]> (build_dict books).
Proof. unfold build_dict. by rewrite fold_left_app. Qed.

Lemma build_dict_lookup (books : list Book) (i : string) :
  build_dict books !! i = last (filter (λ b, get_isbn b = i) books).
Proof.
  induction books as [|b books IH] using rev_ind; [done|].
  rewrite build_dict_snoc, filter_app, filter_cons, filter_nil.
  destruct (decide (get_isbn b = i)) as [<-|Hne].
  - by rewrite lookup_insert_eq, last_snoc.
  - by rewrite lookup_insert_ne, app_nil_r.
Qed.

Lemma build_dict_lookup_Some (books : list Book) (i : string) (b : Book) :
  build_dict books !! i = Some b → b ∈ books ∧ get_isbn b = i.
Proof.
  rewrite build_dict_lookup. intros H%last_Some_elem_of.
  by apply list_elem_of_filter in H as [? ?].
Qed.

Lemma build_dict_lookup_is_Some (books : list Book) (i : string) :
  i ∈ get_isbn <$> books → is_Some (build_dict books !! i).
Proof.
  intros (b & -> & Hb)%list_elem_of_fmap.
  rewrite build_dict_lookup. apply last_is_Some.
  intros Hnil. assert (b ∈ filter (λ b', get_isbn b' = get_isbn b) books) as H.
  { by apply list_elem_of_filter. }
  rewrite Hnil in H. by apply not_elem_of_nil in H.
Qed.

Lemma build_dict_lookup_None (books : list Book) (i : string) :
  i ∉ get_isbn <$> books → build_dict books !! i = None.
Proof.
  intros Hi. destruct (build_dict books !! i) as [b|] eqn:Hb; [|done].
  apply build_dict_lookup_Some in Hb as [Hin <-].
  exfalso. apply Hi. apply list_elem_of_fmap. eauto.
Qed.

(** X1: the index built by [__init__] maps an ISBN to the last book of the
    list with that ISBN: a later copy replaces an earlier one, and an ISBN
    that no book of the list carries has no entry. *)
Theorem index_keeps_last_copy (b : Book) (l : list Book) :
  ∃ c, CustomerShoppingCart_init (PyList (b :: l)) = (Ok c, [])
       ∧ ∀ i, dict_books_in_cart c !! i
              = last (filter (λ b', get_isbn b' = i) (b :: l)).
Proof.
  eexists. split; [reflexivity|]. intros i. apply build_dict_lookup.
Qed.

(** X2: on a cart whose index was built from [books], looking up the ISBN
    of any of these books returns a book of the list with that ISBN and
    leaves the world alone. *)
Theorem get_object_for_isbn_found (books : list Book) (w : world) (b : Book) :
  dict_books_in_cart (self w) = build_dict books →
  b ∈ books →
  ∃ b', get_object_for_isbn (get_isbn b) w = (Ok b', w)
        ∧ b' ∈ books ∧ get_isbn b' = get_isbn b.
Proof.
  intros Hd Hb.
  destruct (build_dict_lookup_is_Some books (get_isbn b)) as [b' Hb'].
  { apply list_elem_of_fmap. eauto. }
  exists b'. split; [|by apply build_dict_lookup_Some].
  unfold get_object_for_isbn, mbind, M_bind, get_self. simpl.
  by rewrite Hd, Hb'.
Qed.

Lemma get_object_for_isbn_found_witness :
  ∃ b', get_object_for_isbn (get_isbn book1) (cart_with_series cart_B the_series)
        = (Ok b', cart_with_series cart_B the_series)
        ∧ b' ∈ cart_B ∧ get_isbn b' = get_isbn book1.
Proof.
  apply (get_object_for_isbn_found cart_B (cart_with_series cart_B the_series) book1).
  - reflexivity.
  - apply list_elem_of_here.
Defined.

(** X3: looking up an ISBN that no book of the list carries raises
    [KeyError] with that ISBN and leaves the world alone. *)
Theorem get_object_for_isbn_missing (books : list Book) (w : world) (i : string) :
  dict_books_in_cart (self w) = build_dict books →
  i ∉ get_isbn <$> books →
  get_object_for_isbn i w = (Raise (KeyError i), w).
Proof.
  intros Hd Hi.
  unfold get_object_for_isbn, mbind, M_bind, get_self. simpl.
  by rewrite Hd, build_dict_lookup_None.
Qed.

Lemma get_object_for_isbn_missing_witness :
  get_object_for_isbn "ISBN-000" (cart_with_series cart_B the_series)
  = (Raise (KeyError "ISBN-000"), cart_with_series cart_B the_series).
Proof.
  apply (get_object_for_isbn_missing cart_B).
  - reflexivity.
  - by apply (bool_decide_unpack _); vm_compute.
Defined.

(** ** Subtraction of lists *)

Lemma list_to_set_disj_submseteq (g l : list string) :
  g ⊆+ l → (list_to_set_disj g : gmultiset string) ⊆ list_to_set_disj l.
Proof.
  intros [k Hk]%submseteq_Permutation.
  rewrite Hk, list_to_set_disj_app. multiset_solver.
Qed.

(** X4: [subtract_list] subtracts the counts: an ISBN occurs in the result
    as often as in the larger list less its occurrences in the smaller one,
    and never fewer than zero times. *)
Theorem subtract_list_counts (x : string) (larger_list smaller_list : list string) :
  count x (subtract_list larger_list smaller_list)
  = count x larger_list - count x smaller_list.
Proof. apply count_subtract_list. Qed.

(** X5: when the smaller list is contained in the larger one, with
    multiplicities, putting it back after the subtraction gives the larger
    list again, up to the order of the elements. *)
Theorem subtract_list_put_back (larger_list smaller_list : list string) :
  smaller_list ⊆+ larger_list →
  (subtract_list larger_list smaller_list ++ smaller_list)%list ≡ₚ larger_list.
Proof.
  intros Hsub%list_to_set_disj_submseteq. unfold subtract_list.
  rewrite <- (elements_list_to_set_disj smaller_list) at 2.
  rewrite <- gmultiset_elements_disj_union.
  replace ((list_to_set_disj larger_list ∖ list_to_set_disj smaller_list)
           ⊎ list_to_set_disj smaller_list)
    with (list_to_set_disj larger_list : gmultiset string) by multiset_solver.
  apply elements_list_to_set_disj.
Qed.

Lemma subtract_list_put_back_witness :
  ["a"; "b"] ⊆+ ["a"; "b"; "a"; "c"]
  ∧ (subtract_list ["a"; "b"; "a"; "c"] ["a"; "b"] ++ ["a"; "b"])%list
    ≡ₚ ["a"; "b"; "a"; "c"].
Proof.
  assert (["a"; "b"] ⊆+ ["a"; "b"; "a"; "c"]) as H.
  { by apply (bool_decide_unpack _); vm_compute. }
  split; [exact H|].
  apply (subtract_list_put_back ["a"; "b"; "a"; "c"] ["a"; "b"] H).
Defined.

(** ** The greatest number of copies *)

Lemma max_count_loop_attained (l0 l : list string) (m : nat) :
  fold_left (λ m x, if m <? count x l0 then count x l0 else m) l m = m
  ∨ ∃ x, x ∈ l
         ∧ fold_left (λ m x, if m <? count x l0 then count x l0 else m) l m
           = count x l0.
Proof.
  revert m. induction l as [|y l IH]; intros m; simpl; [by left|].
  destruct (IH (if m <? count y l0 then count y l0 else m)) as [H|(x & Hx & H)].
  - rewrite H. destruct (Nat.ltb_spec m (count y l0)); [|by left].
    right. exists y. split; [apply list_elem_of_here|done].
  - right. exists x. split; [by apply list_elem_of_further|done].
Qed.

Lemma max_count_attained (b : string) (l : list string) :
  ∃ x, x ∈ b :: l ∧ count x (b :: l) = max_count_of_a_book (b :: l).
Proof.
  destruct (max_count_loop_attained (b :: l) (b :: l) 0) as [H|(x & Hx & H)].
  - pose proof (count_le_max_count b (b :: l)) as Hle.
    unfold max_count_of_a_book in Hle. rewrite H in Hle.
    assert (0 < count b (b :: l)) by (apply elem_of_count, list_elem_of_here).
    lia.
  - exists x. by split.
Qed.

(** X6: the first loop of [calculate_total_price] computes the greatest
    number of copies of one ISBN in the cart: no ISBN occurs more often, and
    some ISBN of a non-empty list occurs exactly that often. *)
Theorem max_count_of_a_book_is_maximum (b : string) (l : list string) :
  (∀ x, count x (b :: l) ≤ max_count_of_a_book (b :: l))
  ∧ ∃ x, x ∈ b :: l ∧ count x (b :: l) = max_count_of_a_book (b :: l).
Proof.
  split; [intros x; apply count_le_max_count|apply max_count_attained].
Qed.

(** ** The test for unknown books *)

(** X7: the subset test of the source, made on the symmetric difference of
    the ISBNs of the cart and of the series, succeeds exactly when every
    ISBN of the series is in the cart. *)
Theorem unknown_test_is_series_in_cart (isbn_books_in_cart isbn_series_of_books : list string) :
  bool_decide ((list_to_set (unknown_isbn_list isbn_books_in_cart isbn_series_of_books)
                : gset string) ⊆ list_to_set isbn_books_in_cart)
  = bool_decide ((list_to_set isbn_series_of_books : gset string)
                 ⊆ list_to_set isbn_books_in_cart).
Proof. apply bool_decide_ext, unknown_subset_test. Qed.

(** X8: when every ISBN of the series is in the cart, the unknown ISBNs are
    the ISBNs of the cart that are not in the series, each listed once. *)
Theorem unknown_isbn_list_when_tested
    (isbn_books_in_cart isbn_series_of_books : list string) :
  (list_to_set isbn_series_of_books : gset string) ⊆ list_to_set isbn_books_in_cart →
  NoDup (unknown_isbn_list isbn_books_in_cart isbn_series_of_books)
  ∧ ∀ x, x ∈ unknown_isbn_list isbn_books_in_cart isbn_series_of_books
         ↔ x ∈ isbn_books_in_cart ∧ x ∉ isbn_series_of_books.
Proof.
  intros Hsub. split; [apply NoDup_elements|].
  intros x. unfold unknown_isbn_list, symmetric_difference. set_solver.
Qed.

Lemma unknown_isbn_list_when_tested_witness :
  NoDup (unknown_isbn_list (get_isbn <$> cart_series_and_unknown)
                           (get_isbn <$> the_series))
  ∧ ∀ x, x ∈ unknown_isbn_list (get_isbn <$> cart_series_and_unknown)
                               (get_isbn <$> the_series)
         ↔ x ∈ get_isbn <$> cart_series_and_unknown
           ∧ x ∉ get_isbn <$> the_series.
Proof.
  apply (unknown_isbn_list_when_tested (get_isbn <$> cart_series_and_unknown)
                                       (get_isbn <$> the_series)).
  by apply (bool_decide_unpack _); vm_compute.
Defined.

(** ** The listing of a grouping *)

Lemma string_app_assoc (s1 s2 s3 : string) :
  (s1 +:+ s2) +:+ s3 = s1 +:+ (s2 +:+ s3).
Proof.
  induction s1 as [|c s1 IH]; [done|].
  change (String c ((s1 +:+ s2) +:+ s3) = String c (s1 +:+ (s2 +:+ s3))).
  by rewrite IH.
Qed.

Lemma string_app_nonempty (s1 s2 : string) :
  s1 ≠ EmptyString → s1 +:+ s2 ≠ EmptyString.
Proof. by destruct s1. Qed.

Lemma concat_joined_head (sep a t : string) (rest : list string) :
  String.concat sep ((a +:+ sep +:+ t) :: rest)
  = a +:+ sep +:+ String.concat sep (t :: rest).
Proof.
  destruct rest as [|t2 rest]; simpl; [done|].
  by rewrite !string_app_assoc.
Qed.

Lemma print_loop_from (books : list Book) (print_string : string) :
  print_string ≠ EmptyString →
  Forall (λ b, get_title b ≠ EmptyString) books →
  fold_left print_step books print_string
  = String.concat " + " (print_string :: (get_title <$> books)).
Proof.
  intros Hne Hall. revert print_string Hne.
  induction Hall as [|b books Hb Hall IH]; intros print_string Hne; [done|].
  cbn [fold_left]. unfold print_step at 2. rewrite decide_False by done.
  rewrite IH by by apply string_app_nonempty.
  rewrite fmap_cons. apply concat_joined_head.
Qed.

(** X9: when no title is empty, [print] lists the titles in the order of
    the books, joined by [" + "] and put in brackets; the listing of no
    book is ["[]"]. *)
Theorem print_joins_titles (set_of_books : list Book) :
  Forall (λ b, get_title b ≠ EmptyString) set_of_books →
  CustomerShoppingCart_print set_of_books
  = "[" +:+ String.concat " + " (get_title <$> set_of_books) +:+ "]".
Proof.
  intros Hall. unfold CustomerShoppingCart_print. do 2 f_equal.
  destruct Hall as [|b books Hb Hall]; [done|].
  cbn [fold_left]. unfold print_step at 2. rewrite decide_True by done.
  by rewrite print_loop_from.
Qed.

Lemma print_joins_titles_witness :
  Forall (λ b, get_title b ≠ EmptyString) [book1; book3]
  ∧ CustomerShoppingCart_print [book1; book3]
    = "[Young Wizard - Series 1 + Young Wizard - Series 3]".
Proof.
  assert (Forall (λ b, get_title b ≠ EmptyString) [book1; book3]) as H.
  { repeat constructor; discriminate. }
  split; [exact H|]. apply (print_joins_titles [book1; book3] H).
Defined.

(** X10: books with an empty title at the head of the list leave no trace
    in the listing, not even a separator: the loop takes the listing for
    one that has not begun. *)
Theorem print_skips_leading_empty_titles (blank set_of_books : list Book) :
  Forall (λ b, get_title b = EmptyString) blank →
  CustomerShoppingCart_print (blank ++ set_of_books)
  = CustomerShoppingCart_print set_of_books.
Proof.
  intros Hall. unfold CustomerShoppingCart_print. do 2 f_equal.
  induction Hall as [|b blank Hb Hall IH]; [done|].
  cbn [app fold_left]. unfold print_step at 2.
  rewrite decide_True by done. by rewrite Hb.
Qed.

Lemma print_skips_leading_empty_titles_witness :
  Forall (λ b, get_title b = EmptyString) [mkBook 7 "ISBN-777" EmptyString eight]
  ∧ CustomerShoppingCart_print ([mkBook 7 "ISBN-777" EmptyString eight] ++ [book1])
    = CustomerShoppingCart_print [book1].
Proof.
  assert (Forall (λ b, get_title b = EmptyString)
            [mkBook 7 "ISBN-777" EmptyString eight]) as H.
  { repeat constructor. }
  split; [exact H|].
  apply (print_skips_leading_empty_titles
           [mkBook 7 "ISBN-777" EmptyString eight] [book1] H).
Defined.

(** ** The discount of a grouping *)

Lemma calculate_discount_value (set_of_books : list Book) (w : world) :
  is_Some (pricing (self w)) →
  calculate_discount set_of_books w
  = (Ok ((sum_of_unit_prices set_of_books
          * Q2Qc (inject_Z (discount_table (length set_of_books))) / Q2Qc 100)%Qc,
         discount_table (length set_of_books)), w).
Proof.
  intros [p Hp]. unfold calculate_discount.
  unfold mbind at 1. unfold M_bind, get_self. cbv beta iota. rewrite Hp.
  unfold mbind, M_bind. rewrite get_discount_percentage_list.
  unfold mret, M_ret. by rewrite sum_prices_zero.
Qed.

(** ** The groupings, round by round *)

Section groupings.
Variable isbn_series_of_books : list string.

Local Abbreviation extracted := (extracted_combination isbn_series_of_books).
Local Abbreviation rounds := (groupings_from isbn_series_of_books).
Local Abbreviation same_copies := (same_series_copies isbn_series_of_books).

Lemma split_loop_groupings (max_count n : nat) :
  ∀ (i : nat) (split : list (list string)) (cart : list string),
    i + n ≤ max_count →
    (fold_left (split_round isbn_series_of_books max_count) (seq i n) (split, cart)).1
    = (split ++ rounds cart n)%list.
Proof.
  induction n as [|n IH]; intros i split cart Hi; simpl.
  - by rewrite app_nil_r.
  - rewrite bool_decide_eq_true_2 by lia.
    rewrite IH by lia. by rewrite <- app_assoc.
Qed.

Lemma split_books_isbn_to_discount_rounds (cart : list string) (max_count : nat) :
  split_books_isbn_to_discount isbn_series_of_books cart max_count
  = rounds cart max_count.
Proof.
  unfold split_books_isbn_to_discount, split_loop.
  by rewrite split_loop_groupings.
Qed.

Lemma extracted_same_copies (l1 l2 : list string) :
  same_copies l1 l2 → extracted l1 = extracted l2.
Proof.
  intros H. unfold extracted_combination. f_equal.
  apply set_eq. intros x. rewrite !elem_of_intersection, !elem_of_list_to_set.
  split; intros [Hs Hx]; (split; [done|]);
    apply elem_of_count; apply elem_of_count in Hx;
    specialize (H x Hs); lia.
Qed.

Lemma subtract_same_copies (l1 l2 g : list string) :
  same_copies l1 l2 → same_copies (subtract_list l1 g) (subtract_list l2 g).
Proof.
  intros H x Hx. rewrite !count_subtract_list. by rewrite (H x Hx).
Qed.

Lemma rounds_same_copies (n : nat) (l1 l2 : list string) :
  same_copies l1 l2 → rounds l1 n = rounds l2 n.
Proof.
  revert l1 l2. induction n as [|n IH]; intros l1 l2 H; simpl; [done|].
  rewrite (extracted_same_copies l1 l2 H). f_equal.
  apply IH. by apply subtract_same_copies.
Qed.

Lemma extracted_drained (cart : list string) :
  (∀ x, x ∈ isbn_series_of_books → count x cart = 0) → extracted cart = [].
Proof.
  intros H. unfold extracted_combination.
  replace ((list_to_set isbn_series_of_books : gset string) ∩ list_to_set cart)
    with (∅ : gset string); [apply elements_empty|].
  symmetry. apply set_eq. intros x.
  rewrite elem_of_intersection, !elem_of_list_to_set.
  split; [|by intros ?%not_elem_of_empty].
  intros [Hs Hx]. apply elem_of_count in Hx. specialize (H x Hs). lia.
Qed.

Lemma rounds_drained (k : nat) (cart : list string) :
  (∀ x, x ∈ isbn_series_of_books → count x cart = 0) →
  rounds cart k = replicate k [].
Proof.
  revert cart. induction k as [|k IH]; intros cart H; simpl; [done|].
  rewrite (extracted_drained cart H). f_equal. apply IH.
  intros x Hx. rewrite count_subtract_list, (H x Hx). done.
Qed.

Lemma count_extracted_round (x : string) (cart : list string) :
  x ∈ isbn_series_of_books →
  count x (subtract_list cart (extracted cart)) = count x cart - 1.
Proof.
  intros Hx. rewrite count_subtract_list, (count_NoDup x (extracted cart))
    by (unfold extracted_combination; apply NoDup_elements).
  case_decide as Hg; [done|].
  assert (¬ 0 < count x cart); [|lia].
  rewrite <- elem_of_count. intros Hc. apply Hg.
  unfold extracted_combination. set_solver.
Qed.

(** Once every ISBN of the series is used up, further rounds make empty
    groupings only. *)
Lemma rounds_beyond (n k : nat) (cart : list string) :
  (∀ x, x ∈ isbn_series_of_books → count x cart ≤ n) →
  rounds cart (n + k) = (rounds cart n ++ replicate k [])%list.
Proof.
  revert cart. induction n as [|n IH]; intros cart H; simpl.
  - apply rounds_drained. intros x Hx. specialize (H x Hx). lia.
  - f_equal. apply IH. intros x Hx.
    rewrite (count_extracted_round x cart Hx). specialize (H x Hx). lia.
Qed.

Lemma rounds_elements (n : nat) (cart : list string) :
  Forall (λ g, ∀ x, x ∈ g → x ∈ isbn_series_of_books ∧ x ∈ cart) (rounds cart n).
Proof.
  revert cart. induction n as [|n IH]; intros cart; simpl; [constructor|].
  constructor.
  - intros x Hx. unfold extracted_combination in Hx. set_solver.
  - eapply Forall_impl; [apply IH|]. intros g Hg x Hx.
    destruct (Hg x Hx) as [Hs Hc]. split; [done|].
    apply elem_of_count. apply elem_of_count in Hc.
    rewrite count_subtract_list in Hc. lia.
Qed.
End groupings.

(** ** The price of the groupings, as a function of the cart *)

Lemma bind_run {A B : Type} (m : M A) (f : A → M B) (w : world) :
  (m ≫= f) w
  = match m w with
    | (Ok a, w') => f a w'
    | (Raise e, w') => (Raise e, w')
    end.
Proof. reflexivity. Qed.

Lemma get_object_for_isbn_lookup (i : string) (w : world) :
  get_object_for_isbn i w
  = (match dict_books_in_cart (self w) !! i with
     | Some book => Ok book
     | None => Raise (KeyError i)
     end, w).
Proof.
  unfold get_object_for_isbn, mbind, M_bind, get_self. cbv beta iota.
  by destruct (dict_books_in_cart (self w) !! i).
Qed.

Lemma mapM_lookup_all (set_of_isbns : list string) (w : world) :
  mapM get_object_for_isbn set_of_isbns w
  = (lookup_all (dict_books_in_cart (self w)) set_of_isbns, w).
Proof.
  induction set_of_isbns as [|i rest IH]; [done|].
  cbn [mapM lookup_all]. rewrite bind_run, get_object_for_isbn_lookup.
  destruct (dict_books_in_cart (self w) !! i) as [book|]; [|done].
  rewrite bind_run, IH.
  by destruct (lookup_all (dict_books_in_cart (self w)) rest).
Qed.

Lemma price_grouping_pure (total_price : Qc) (set_of_isbns : list string) (w : world) :
  price_grouping total_price set_of_isbns w
  = (grouping_total (self w) total_price set_of_isbns, w).
Proof.
  unfold price_grouping, grouping_total.
  rewrite bind_run, mapM_lookup_all.
  destruct (lookup_all (dict_books_in_cart (self w)) set_of_isbns) as [books|e];
    [|done].
  rewrite bind_run.
  destruct (pricing (self w)) as [p|] eqn:Hp.
  - rewrite calculate_discount_value by by rewrite Hp.
    unfold mret, M_ret. by rewrite sum_prices_spec.
  - unfold calculate_discount. rewrite bind_run. unfold get_self.
    by rewrite Hp.
Qed.

Lemma price_groupings_pure (split : list (list string)) (total_price : Qc) (w : world) :
  price_groupings total_price split w
  = (groupings_total (self w) total_price split, w).
Proof.
  revert total_price. induction split as [|g split IH]; intros total_price; [done|].
  cbn [price_groupings groupings_total]. rewrite bind_run, price_grouping_pure.
  destruct (grouping_total (self w) total_price g); [apply IH|done].
Qed.

Lemma lookup_all_Ok (d : gmap string Book) (g : list string) :
  (∀ i, i ∈ g → is_Some (d !! i)) →
  ∃ books, lookup_all d g = Ok books ∧ Forall2 (λ i b, d !! i = Some b) g books.
Proof.
  induction g as [|i g IH]; intros H; simpl.
  - exists []. by split.
  - destruct (H i) as [b Hb]; [apply list_elem_of_here|]. rewrite Hb.
    destruct IH as (books & -> & Hall).
    { intros j Hj. apply H. by apply list_elem_of_further. }
    exists (b :: books). split; [done|]. by constructor.
Qed.

Lemma lookup_all_inv (d : gmap string Book) (g : list string) (books : list Book) :
  lookup_all d g = Ok books → Forall2 (λ i b, d !! i = Some b) g books.
Proof.
  revert books. induction g as [|i g IH]; intros books; simpl.
  - intros [= <-]. constructor.
  - destruct (d !! i) as [b|] eqn:Hb; [|done].
    destruct (lookup_all d g) as [bs|]; [|done].
    intros [= <-]. constructor; [done|]. by apply IH.
Qed.

Lemma groupings_total_Ok (c : CustomerShoppingCart) (gs : list (list string)) (t : Qc) :
  is_Some (pricing c) →
  Forall (λ g, ∀ i, i ∈ g → is_Some (dict_books_in_cart c !! i)) gs →
  ∃ v, groupings_total c t gs = Ok v.
Proof.
  intros [p Hp] Hall. revert t.
  induction Hall as [|g gs Hg Hall IH]; intros t; simpl; [by eexists|].
  unfold grouping_total.
  destruct (lookup_all_Ok _ g Hg) as (books & -> & _). rewrite Hp. apply IH.
Qed.

(** ** The removal of the unknown books *)

Lemma list_remove_Some (x : Book) (l l' : list Book) :
  list_remove x l = Some l' → l ≡ₚ x :: l'.
Proof.
  revert l'. induction l as [|y l IH]; intros l'; simpl; [done|].
  case_decide as Hy.
  - intros [= <-]. by subst.
  - destruct (list_remove x l) as [l''|]; [|done]. simpl.
    intros [= <-]. rewrite (IH l'' eq_refl). apply Permutation_swap.
Qed.

Lemma list_remove_elem_of (x : Book) (l : list Book) :
  x ∈ l → is_Some (list_remove x l).
Proof.
  induction l as [|y l IH]; simpl; [by intros ?%not_elem_of_nil|].
  case_decide as Hy; [by eexists|].
  intros [->|Hx]%elem_of_cons; [done|].
  destruct (IH Hx) as [l' ->]. by eexists.
Qed.

Lemma remove_unknown_book_run (b : Book) (w : world) :
  remove_unknown_book b w
  = match list_remove b (books_in_cart (self w)) with
    | Some l =>
        (Ok tt,
         mkWorld (mkCart l (dict_books_in_cart (self w))
                    (series_of_books (self w)) (pricing (self w)))
                 ((output w ++ [LogWarning (unknown_message b)])
                  ++ [Stdout (unknown_message b)]))
    | None =>
        (Raise (ValueError "list.remove(x): x not in list"),
         mkWorld (self w)
                 ((output w ++ [LogWarning (unknown_message b)])
                  ++ [Stdout (unknown_message b)]))
    end.
Proof.
  unfold remove_unknown_book, mbind, M_bind, emit, get_self, put_self, raise.
  simpl. by destruct (list_remove b (books_in_cart (self w))).
Qed.

Lemma same_index_refl (w : world) : same_index w w.
Proof. by repeat split. Qed.

Lemma same_index_trans (w1 w2 w3 : world) :
  same_index w1 w2 → same_index w2 w3 → same_index w1 w3.
Proof.
  intros (H1 & H2 & H3) (H4 & H5 & H6). repeat split; congruence.
Qed.

Lemma for_each_remove_Ok (reps : list Book) (w w' : world) :
  for_each reps remove_unknown_book w = (Ok tt, w') →
  same_index w' w
  ∧ books_in_cart (self w) ≡ₚ (reps ++ books_in_cart (self w'))%list
  ∧ output w' = (output w ++ flat_map unknown_report reps)%list.
Proof.
  revert w. induction reps as [|b reps IH]; intros w; simpl.
  - intros [= <-]. split; [apply same_index_refl|]. by rewrite app_nil_r.
  - rewrite bind_run, remove_unknown_book_run.
    destruct (list_remove b (books_in_cart (self w))) as [l|] eqn:Hl; [|done].
    intros H. apply IH in H as (Hi & Hp & Ho). simpl in *.
    split; [|split].
    + eapply same_index_trans; [exact Hi|]. by repeat split.
    + rewrite (list_remove_Some _ _ _ Hl). by rewrite Hp.
    + rewrite Ho. by rewrite <- !app_assoc.
Qed.

Lemma for_each_remove_succeeds (reps : list Book) (w : world) :
  NoDup reps → (∀ b, b ∈ reps → b ∈ books_in_cart (self w)) →
  ∃ w', for_each reps remove_unknown_book w = (Ok tt, w').
Proof.
  intros Hnd. revert w. induction Hnd as [|b reps Hb Hnd IH]; intros w Hin; simpl.
  - by eexists.
  - rewrite bind_run, remove_unknown_book_run.
    destruct (list_remove_elem_of b (books_in_cart (self w))) as [l Hl].
    { apply Hin, list_elem_of_here. }
    rewrite Hl. apply IH. simpl. intros b' Hb'.
    assert (b' ∈ b :: l) as [->|?]%elem_of_cons; [|done|done].
    rewrite <- (list_remove_Some _ _ _ Hl). apply Hin.
    by apply list_elem_of_further.
Qed.

Lemma remove_unknown_books_Ok (l S : list string) (w w' : world) :
  remove_unknown_books l S w = (Ok tt, w') →
  same_index w' w
  ∧ ∃ reps,
      books_in_cart (self w) ≡ₚ (reps ++ books_in_cart (self w'))%list
      ∧ output w' = (output w ++ flat_map unknown_report reps)%list
      ∧ ((¬ (list_to_set S : gset string) ⊆ list_to_set l) ∧ reps = []
         ∨ (list_to_set S : gset string) ⊆ list_to_set l
           ∧ lookup_all (dict_books_in_cart (self w)) (unknown_isbn_list l S)
             = Ok reps).
Proof.
  unfold remove_unknown_books. case_bool_decide as Hsub.
  - rewrite (unknown_subset_test l S) in Hsub.
    rewrite bind_run, mapM_lookup_all.
    destruct (lookup_all (dict_books_in_cart (self w)) (unknown_isbn_list l S))
      as [reps|e] eqn:Hreps; [|done].
    intros (Hi & Hp & Ho)%for_each_remove_Ok.
    split; [done|]. exists reps. split_and!; [done|done|]. by right.
  - intros [= <-]. split; [apply same_index_refl|].
    exists []. split_and!; [done|by rewrite app_nil_r|].
    left. split; [|done]. by rewrite <- (unknown_subset_test l S).
Qed.


Lemma count_app (x : string) (l1 l2 : list string) :
  count x (l1 ++ l2) = count x l1 + count x l2.
Proof. unfold count. by rewrite filter_app, length_app. Qed.


(** ** A call of [calculate_total_price], step by step *)

Lemma calculate_total_price_run (w : world) (series : list Book) :
  series_of_books (self w) = Some series → series ≠ [] →
  calculate_total_price w
  = match remove_unknown_books (get_isbn <$> books_in_cart (self w))
            (get_isbn <$> series) w with
    | (Ok _, w1) =>
        (groupings_total (self w1) 0%Qc
           (groupings_from (get_isbn <$> series)
              (get_isbn <$> books_in_cart (self w))
              (max_count_of_a_book (get_isbn <$> books_in_cart (self w)))), w1)
    | (Raise e, w1) => (Raise e, w1)
    end.
Proof.
  intros Hs Hne. unfold calculate_total_price.
  rewrite bind_run. unfold get_self. rewrite Hs.
  rewrite bool_decide_eq_true_2 by by destruct series.
  cbv zeta. rewrite bind_run.
  destruct (remove_unknown_books _ _ w) as [[[]|e] w1]; [|done].
  by rewrite price_groupings_pure, split_books_isbn_to_discount_rounds.
Qed.

Lemma calculate_total_price_no_series (w : world) :
  series_of_books (self w) = Some [] →
  calculate_total_price w
  = (Ok (sum_of_unit_prices (books_in_cart (self w))), w).
Proof.
  intros Hs. unfold calculate_total_price.
  rewrite bind_run. unfold get_self. rewrite Hs.
  rewrite bool_decide_eq_false_2 by (simpl; lia).
  unfold mret, M_ret. by rewrite sum_prices_zero.
Qed.

Lemma build_dict_keyed (books : list Book) : index_keyed (build_dict books).
Proof. intros i b Hb. by apply build_dict_lookup_Some in Hb as [_ ?]. Qed.

(** On a cart as it was built, every unknown book that is to be removed is
    in the list, so the removal goes through. *)
Lemma remove_unknown_books_fresh (books series : list Book) :
  ∃ w', remove_unknown_books (get_isbn <$> books) (get_isbn <$> series)
          (cart_with_series books series) = (Ok tt, w').
Proof.
  unfold remove_unknown_books. case_bool_decide as Hsub; [|by eexists].
  rewrite bind_run, mapM_lookup_all. simpl.
  destruct (lookup_all_Ok (build_dict books)
              (unknown_isbn_list (get_isbn <$> books) (get_isbn <$> series)))
    as (reps & -> & Hreps).
  { intros i Hi. apply build_dict_lookup_is_Some.
    assert (i ∈ (list_to_set (unknown_isbn_list (get_isbn <$> books)
                                (get_isbn <$> series)) : gset string)) as Hi'
      by by apply elem_of_list_to_set.
    apply Hsub in Hi'. by apply elem_of_list_to_set in Hi'. }
  apply for_each_remove_succeeds.
  - assert (NoDup (unknown_isbn_list (get_isbn <$> books) (get_isbn <$> series)))
      as Hnd by apply NoDup_elements.
    clear Hsub. induction Hreps as [|i b ids reps Hb Hreps IH]; [constructor|].
    apply NoDup_cons in Hnd as [Hi Hnd]. constructor; [|by apply IH].
    intros Hin. apply Hi.
    apply list_elem_of_lookup in Hin as [n Hn].
    destruct (Forall2_lookup_r _ _ _ _ _ Hreps Hn) as (j & Hj & Hd).
    apply build_dict_keyed in Hb. apply build_dict_keyed in Hd.
    subst. by apply list_elem_of_lookup_2 in Hj.
  - intros b Hb. simpl.
    apply list_elem_of_lookup in Hb as [n Hn].
    destruct (Forall2_lookup_r _ _ _ _ _ Hreps Hn) as (j & Hj & Hd).
    by apply build_dict_lookup_Some in Hd as [? _].
Qed.

Lemma calculate_total_price_fresh (books series : list Book) :
  ∃ v w', calculate_total_price (cart_with_series books series) = (Ok v, w').
Proof.
  destruct (decide (series = [])) as [->|Hne].
  - rewrite calculate_total_price_no_series by done. by eexists _, _.
  - rewrite (calculate_total_price_run _ series) by done. simpl.
    destruct (remove_unknown_books_fresh books series) as [w' Hw']. rewrite Hw'.
    destruct (remove_unknown_books_Ok _ _ _ _ Hw') as ((Hd & _ & Hp) & _).
    simpl in Hd, Hp.
    destruct (groupings_total_Ok (self w') (groupings_from (get_isbn <$> series)
                (get_isbn <$> books) (max_count_of_a_book (get_isbn <$> books)))
                0%Qc) as [v Hv].
    + by rewrite Hp.
    + eapply Forall_impl; [apply rounds_elements|].
      intros g Hg i Hi. rewrite Hd. apply build_dict_lookup_is_Some. by apply Hg.
    + rewrite Hv. by eexists _, _.
Qed.

(** ** The first call on a cart *)

(** X12: on a cart as it was built, with any series attached by
    [set_series_of_books], the first call of [calculate_total_price] raises
    nothing: every lookup in the index and every removal from the list that
    it makes goes through, and it returns a total. *)
Theorem first_call_returns (b : Book) (l series : list Book) :
  ∃ c v w',
    CustomerShoppingCart_init (PyList (b :: l)) = (Ok c, [])
    ∧ (set_series_of_books (PyList series);; calculate_total_price) (new_world c)
      = (Ok v, w').
Proof.
  destruct (calculate_total_price_fresh (b :: l) series) as (v & w' & H).
  eexists _, v, w'. split; [reflexivity|]. exact H.
Qed.

(** X13: when the series is not empty and every ISBN of the series is in
    the cart, the first call reports each unknown ISBN of the cart once on
    the log and once on the console, naming the book that the index keeps
    for it, and removes that one book from the list: the books that are
    left, with the reported ones, are the books of the cart. *)
Theorem first_call_reports_unknown_books (books series : list Book) :
  series ≠ [] →
  (list_to_set (get_isbn <$> series) : gset string)
    ⊆ list_to_set (get_isbn <$> books) →
  ∃ v w' reps,
    calculate_total_price (cart_with_series books series) = (Ok v, w')
    ∧ Forall2 (λ i rep, build_dict books !! i = Some rep)
        (unknown_isbn_list (get_isbn <$> books) (get_isbn <$> series)) reps
    ∧ output w' = flat_map unknown_report reps
    ∧ books ≡ₚ (reps ++ books_in_cart (self w'))%list.
Proof.
  intros Hne Hsub.
  destruct (calculate_total_price_fresh books series) as (v & w' & H).
  exists v, w'. pose proof H as Hcall.
  rewrite (calculate_total_price_run _ series) in H by done.
  simpl in H.
  destruct (remove_unknown_books _ _ _) as [[[]|e] w1] eqn:Hrem; [|done].
  injection H as _ <-.
  apply remove_unknown_books_Ok in Hrem as (_ & reps & Hp & Ho & Hreps).
  simpl in *. destruct Hreps as [[Hn _]|[_ Hreps]]; [by destruct Hn|].
  exists reps. split_and!; [done|by apply lookup_all_inv|done|done].
Qed.

Lemma first_call_reports_unknown_books_witness :
  ∃ v w' reps,
    calculate_total_price (cart_with_series cart_series_and_unknown the_series)
    = (Ok v, w')
    ∧ Forall2 (λ i rep, build_dict cart_series_and_unknown !! i = Some rep)
        (unknown_isbn_list (get_isbn <$> cart_series_and_unknown)
                           (get_isbn <$> the_series)) reps
    ∧ output w' = flat_map unknown_report reps
    ∧ cart_series_and_unknown ≡ₚ (reps ++ books_in_cart (self w'))%list.
Proof.
  apply (first_call_reports_unknown_books cart_series_and_unknown the_series).
  - discriminate.
  - by apply (bool_decide_unpack _); vm_compute.
Defined.

(** ** What the partition depends on *)

Lemma count_fmap_insert (x : string) (u : Book) (l1 l2 : list Book) :
  get_isbn u ≠ x →
  count x (get_isbn <$> (l1 ++ u :: l2)%list)
  = count x (get_isbn <$> (l1 ++ l2)%list).
Proof.
  intros Hu. rewrite !fmap_app, fmap_cons, !count_app. f_equal.
  unfold count. by rewrite filter_cons, decide_False.
Qed.

Lemma filter_nonempty_replicate (k : nat) :
  filter (λ g : list string, g ≠ []) (replicate k []) = [].
Proof.
  induction k as [|k IH]; [done|]. cbn [replicate].
  rewrite filter_cons, decide_False; [exact IH|]. intros H. by apply H.
Qed.

(** Two carts with the same copies of the ISBNs of the series are split
    into the same groupings, but for the empty groupings of the rounds that
    find nothing left. *)
Lemma nonempty_groupings_same_copies (S l1 l2 : list string) :
  same_series_copies S l1 l2 →
  filter (λ g, g ≠ []) (split_books S l1) = filter (λ g, g ≠ []) (split_books S l2).
Proof.
  intros Hc. unfold split_books. rewrite !split_books_isbn_to_discount_rounds.
  set (n := max_count_of_a_book l1 `min` max_count_of_a_book l2).
  assert (∀ x, x ∈ S → count x l1 ≤ n) as H1.
  { intros x Hx. pose proof (count_le_max_count x l1).
    pose proof (count_le_max_count x l2). rewrite <- (Hc x Hx) in *. lia. }
  assert (∀ x, x ∈ S → count x l2 ≤ n) as H2.
  { intros x Hx. rewrite <- (Hc x Hx). by apply H1. }
  replace (max_count_of_a_book l1) with (n + (max_count_of_a_book l1 - n)) by lia.
  replace (max_count_of_a_book l2) with (n + (max_count_of_a_book l2 - n)) by lia.
  rewrite (rounds_beyond S n _ l1 H1), (rounds_beyond S n _ l2 H2).
  rewrite !filter_app, !filter_nonempty_replicate.
  by rewrite (rounds_same_copies S n l1 l2 Hc).
Qed.

Lemma Forall2_Permutation_refl (gs : list (list string)) : Forall2 (≡ₚ) gs gs.
Proof. induction gs; by constructor. Qed.

(** X14: a book whose ISBN is not in the series changes nothing in the
    partition but, at most, the number of empty groupings: with the book,
    wherever it stands in the cart, the groupings that are not empty are
    those of the cart without it, each with the same ISBNs. *)
Theorem unknown_book_joins_no_grouping (u : Book) (l1 l2 series : list Book) :
  get_isbn u ∉ get_isbn <$> series →
  Forall2 (≡ₚ)
    (filter (λ g, g ≠ [])
       (split_books (get_isbn <$> series) (get_isbn <$> (l1 ++ u :: l2)%list)))
    (filter (λ g, g ≠ [])
       (split_books (get_isbn <$> series) (get_isbn <$> (l1 ++ l2)%list))).
Proof.
  intros Hu.
  rewrite (nonempty_groupings_same_copies (get_isbn <$> series)
             (get_isbn <$> (l1 ++ u :: l2)%list) (get_isbn <$> (l1 ++ l2)%list)).
  - apply Forall2_Permutation_refl.
  - intros x Hx. apply count_fmap_insert.
    intros Heq. by rewrite Heq in Hu.
Qed.

Lemma unknown_book_joins_no_grouping_witness :
  Forall2 (≡ₚ)
    (filter (λ g, g ≠ [])
       (split_books (get_isbn <$> the_series)
          (get_isbn <$> ([book1; book2] ++ cook_book :: [book3; book1])%list)))
    (filter (λ g, g ≠ [])
       (split_books (get_isbn <$> the_series)
          (get_isbn <$> ([book1; book2] ++ [book3; book1])%list))).
Proof.
  apply (unknown_book_joins_no_grouping cook_book [book1; book2] [book3; book1]
           the_series).
  by apply (bool_decide_unpack _); vm_compute.
Defined.



(** ** One copy of each of several books of the series *)

Lemma NoDup_fmap_eq (books : list Book) (x y : Book) :
  NoDup (get_isbn <$> books) → x ∈ books → y ∈ books →
  get_isbn x = get_isbn y → x = y.
Proof.
  induction books as [|b books IH]; [by intros _ ?%not_elem_of_nil|].
  rewrite fmap_cons. intros [Hb Hnd]%NoDup_cons.
  intros [->|Hx]%elem_of_cons [->|Hy]%elem_of_cons Heq; [done| | |by apply IH].
  - exfalso. apply Hb. rewrite Heq. apply list_elem_of_fmap. eauto.
  - exfalso. apply Hb. rewrite <- Heq. apply list_elem_of_fmap. eauto.
Qed.

Lemma build_dict_lookup_NoDup (books : list Book) (x : Book) :
  NoDup (get_isbn <$> books) → x ∈ books →
  build_dict books !! get_isbn x = Some x.
Proof.
  intros Hnd Hx.
  destruct (build_dict_lookup_is_Some books (get_isbn x)) as [y Hy].
  { apply list_elem_of_fmap. eauto. }
  rewrite Hy. f_equal.
  apply build_dict_lookup_Some in Hy as [Hin Heq].
  by apply (NoDup_fmap_eq books).
Qed.

Lemma lookup_all_distinct (books : list Book) (g : list string) :
  NoDup (get_isbn <$> books) → g ≡ₚ get_isbn <$> books →
  ∃ bs, lookup_all (build_dict books) g = Ok bs ∧ bs ≡ₚ books.
Proof.
  intros Hnd Hg.
  destruct (lookup_all_Ok (build_dict books) g) as (bs & Hbs & Hall).
  { intros i Hi. apply build_dict_lookup_is_Some. by rewrite <- Hg. }
  exists bs. split; [done|].
  destruct books as [|b0 books].
  { apply Permutation_nil_r in Hg. subst g. by inversion Hall. }
  set (f := λ i, default b0 (build_dict (b0 :: books) !! i)).
  assert (bs = f <$> g) as ->.
  { clear Hbs Hg. induction Hall as [|i b g bs Hb Hall IH]; [done|].
    rewrite fmap_cons, <- IH. unfold f at 1. by rewrite Hb. }
  rewrite Hg, <- list_fmap_compose.
  assert ((f ∘ get_isbn) <$> b0 :: books = b0 :: books) as ->; [|done].
  rewrite <- (list_fmap_id (b0 :: books)) at 2.
  apply list_fmap_ext. intros n x Hx.
  unfold f. simpl. rewrite build_dict_lookup_NoDup; [done|done|].
  by apply list_elem_of_lookup_2 in Hx.
Qed.

(** X16: a cart of books with pairwise different ISBNs, all of them in the
    series, is one grouping: the partition makes a single grouping that
    holds the ISBNs of the cart, the index gives back the books of the cart
    for it, the percentage is the one of the table for the number of books,
    and the call leaves the cart and the output as they were. *)
Theorem distinct_series_books_one_grouping (b : Book) (l series : list Book) :
  NoDup (get_isbn <$> b :: l) →
  (∀ x, x ∈ b :: l → get_isbn x ∈ get_isbn <$> series) →
  let w := cart_with_series (b :: l) series in
  ∃ g set_of_books,
    split_books (get_isbn <$> series) (get_isbn <$> b :: l) = [g]
    ∧ g ≡ₚ get_isbn <$> b :: l
    ∧ mapM get_object_for_isbn g w = (Ok set_of_books, w)
    ∧ set_of_books ≡ₚ b :: l
    ∧ get_discount_percentage (PyList set_of_books) w
      = (Ok (discount_table (length (b :: l))), w)
    ∧ (calculate_total_price w).2 = w.
Proof.
  intros Hnd Hin w. set (books := b :: l) in *.
  assert ((list_to_set (get_isbn <$> books) : gset string)
            ⊆ list_to_set (get_isbn <$> series)) as Hsub.
  { intros i (x & -> & Hx)%elem_of_list_to_set%list_elem_of_fmap.
    apply elem_of_list_to_set. by apply Hin. }
  assert (extracted_combination (get_isbn <$> series) (get_isbn <$> books)
          ≡ₚ get_isbn <$> books) as Hg.
  { unfold extracted_combination.
    replace ((list_to_set (get_isbn <$> series) : gset string)
               ∩ list_to_set (get_isbn <$> books))
      with (list_to_set (get_isbn <$> books) : gset string) by set_solver.
    by apply elements_list_to_set. }
  destruct (lookup_all_distinct books _ Hnd Hg) as (bs & Hbs & Hperm).
  exists (extracted_combination (get_isbn <$> series) (get_isbn <$> books)), bs.
  split_and!; [|done| |done| |].
  - unfold split_books. rewrite split_books_isbn_to_discount_rounds.
    assert (max_count_of_a_book (get_isbn <$> books) = 1) as ->; [|done].
    unfold books in *. rewrite fmap_cons in *.
    destruct (max_count_attained (get_isbn b) (get_isbn <$> l)) as (x & Hx & <-).
    rewrite count_NoDup by done. by rewrite decide_True.
  - rewrite mapM_lookup_all. unfold w.
    cbn [cart_with_series self dict_books_in_cart]. by rewrite Hbs.
  - rewrite get_discount_percentage_list. by rewrite Hperm.
  - apply calculate_total_price_without_removal.
    unfold removes_unknown_books, w.
    cbn [cart_with_series self series_of_books books_in_cart].
    apply bool_decide_eq_false. tauto.
Qed.

Lemma distinct_series_books_one_grouping_witness :
  ∃ g set_of_books,
    split_books (get_isbn <$> the_series) (get_isbn <$> book1 :: [book2; book3])
    = [g]
    ∧ g ≡ₚ get_isbn <$> book1 :: [book2; book3]
    ∧ mapM get_object_for_isbn g
        (cart_with_series (book1 :: [book2; book3]) the_series)
      = (Ok set_of_books, cart_with_series (book1 :: [book2; book3]) the_series)
    ∧ set_of_books ≡ₚ book1 :: [book2; book3]
    ∧ get_discount_percentage (PyList set_of_books)
        (cart_with_series (book1 :: [book2; book3]) the_series)
      = (Ok (discount_table (length (book1 :: [book2; book3]))),
         cart_with_series (book1 :: [book2; book3]) the_series)
    ∧ (calculate_total_price
         (cart_with_series (book1 :: [book2; book3]) the_series)).2
      = cart_with_series (book1 :: [book2; book3]) the_series.
Proof.
  apply (distinct_series_books_one_grouping book1 [book2; book3] the_series).
  - by apply (bool_decide_unpack _); vm_compute.
  - intros x Hx. rewrite !elem_of_cons in Hx.
    destruct Hx as [->|[->|[->|Hx]]]; [| | |by apply not_elem_of_nil in Hx];
      by apply (bool_decide_unpack _); vm_compute.
Defined.

(** ** The shape of the partition *)

Section shape.
Variable isbn_series_of_books : list string.

Local Abbreviation extracted := (extracted_combination isbn_series_of_books).
Local Abbreviation rounds := (groupings_from isbn_series_of_books).

Lemma elem_of_extracted (x : string) (cart : list string) :
  x ∈ extracted cart ↔ x ∈ isbn_series_of_books ∧ x ∈ cart.
Proof. unfold extracted_combination. set_solver. Qed.

Lemma elem_of_subtract_list (x : string) (l g : list string) :
  x ∈ subtract_list l g → x ∈ l.
Proof.
  rewrite !elem_of_count, count_subtract_list. lia.
Qed.

Lemma rounds_shrink (n k : nat) (cart g g' : list string) :
  rounds cart n !! k = Some g → rounds cart n !! S k = Some g' →
  ∀ x, x ∈ g' → x ∈ g.
Proof.
  revert cart k. induction n as [|n IH]; intros cart k; [done|].
  destruct k as [|k]; simpl.
  - intros [= <-]. destruct n as [|n]; [done|]. simpl. intros [= <-] x.
    rewrite !elem_of_extracted. intros [Hs Hx]. split; [done|].
    by apply elem_of_subtract_list in Hx.
  - apply IH.
Qed.

Lemma rounds_containing (x : string) (n : nat) (cart : list string) :
  x ∈ isbn_series_of_books →
  length (filter (λ g, x ∈ g) (rounds cart n)) = count x cart `min` n.
Proof.
  intros Hx. revert cart. induction n as [|n IH]; intros cart; simpl; [lia|].
  rewrite filter_cons. case_decide as Hg.
  - rewrite length_cons, IH, (count_extracted_round _ x cart Hx).
    apply elem_of_extracted in Hg as [_ Hc%elem_of_count]. lia.
  - rewrite IH, (count_extracted_round _ x cart Hx).
    assert (¬ 0 < count x cart); [|lia].
    rewrite <- elem_of_count. intros Hc. apply Hg. by apply elem_of_extracted.
Qed.
End shape.

(** X18: the groupings shrink: every ISBN of a grouping is in the grouping
    made before it, so no grouping is larger than an earlier one. *)
Theorem groupings_shrink (isbn_series_of_books isbn_books_in_cart : list string)
    (k : nat) (g g' : list string) :
  split_books isbn_series_of_books isbn_books_in_cart !! k = Some g →
  split_books isbn_series_of_books isbn_books_in_cart !! S k = Some g' →
  (∀ x, x ∈ g' → x ∈ g) ∧ length g' ≤ length g.
Proof.
  unfold split_books. rewrite split_books_isbn_to_discount_rounds.
  intros Hg Hg'.
  pose proof (rounds_shrink _ _ _ _ _ _ Hg Hg') as Hsub.
  split; [done|].
  apply submseteq_length, NoDup_submseteq; [|done].
  destruct (max_count_of_a_book isbn_books_in_cart) as [|n]; [done|].
  clear Hg Hsub. revert k isbn_books_in_cart Hg'.
  induction n as [|n IH]; intros k cart; [done|].
  destruct k as [|k]; simpl.
  - intros [= <-]. unfold extracted_combination. apply NoDup_elements.
  - apply (IH k).
Qed.

Lemma groupings_shrink_witness :
  (∀ x, x ∈ ["ISBN-333"; "ISBN-555"; "ISBN-111"]
        → x ∈ ["ISBN-333"; "ISBN-555"; "ISBN-111"; "ISBN-222"; "ISBN-444"])
  ∧ length ["ISBN-333"; "ISBN-555"; "ISBN-111"]
    ≤ length ["ISBN-333"; "ISBN-555"; "ISBN-111"; "ISBN-222"; "ISBN-444"].
Proof.
  apply (groupings_shrink (get_isbn <$> the_series) (get_isbn <$> cart_B) 0).
  - by vm_compute.
  - by vm_compute.
Defined.

(** X19: an ISBN of the series is in exactly as many groupings as the cart
    has copies of it, and an ISBN outside the series is in none. *)
Theorem groupings_hold_every_copy (isbn_series_of_books isbn_books_in_cart : list string)
    (x : string) :
  length (filter (λ g, x ∈ g)
            (split_books isbn_series_of_books isbn_books_in_cart))
  = if decide (x ∈ isbn_series_of_books) then count x isbn_books_in_cart else 0.
Proof.
  unfold split_books. rewrite split_books_isbn_to_discount_rounds.
  case_decide as Hx.
  - rewrite rounds_containing by done.
    pose proof (count_le_max_count x isbn_books_in_cart). lia.
  - apply length_zero_iff_nil.
    destruct (filter _ _) as [|g gs] eqn:Hf; [done|].
    assert (g ∈ filter (λ g, x ∈ g)
                  (groupings_from isbn_series_of_books isbn_books_in_cart
                     (max_count_of_a_book isbn_books_in_cart))) as Hg
      by (rewrite Hf; apply list_elem_of_here).
    apply list_elem_of_filter in Hg as [Hxg Hg].
    pose proof (rounds_elements isbn_series_of_books
                  (max_count_of_a_book isbn_books_in_cart) isbn_books_in_cart) as H.
    rewrite Forall_forall in H. destruct (H g Hg x Hxg). done.
Qed.
